(** * Polar: network orchestration engine

    A shallow embedding of the Docker service (compose file generation,
    container lifecycle, image listing, networks persistence) and of the
    bitcoind store model (cached chain/wallet info, mining), with the
    properties the specification states about them. *)

From Stdlib Require Import ZArith List Lia Ascii.
From stdpp Require Import base option list strings pretty gmap.

Set Default Proof Using "Type".

(** * JavaScript values and control flow *)

(** A thrown value. [TypeError] is raised by the runtime (reading a property
    of [undefined]); [Error] is [new Error(message)]. *)
Inductive JsError : Type :=
  | TypeError (message : string)
  | Error (message : string).

(** The outcome of a synchronous block: a value, or a thrown error. *)
Inductive Result (A : Type) : Type :=
  | Return (a : A)
  | Throw (e : JsError).
Arguments Return {A} a.
Arguments Throw {A} e.

Definition bindR {A B} (m : Result A) (k : A → Result B) : Result B :=
  match m with
  | Return a => k a
  | Throw e => Throw e
  end.

Notation "'try!' x ':=' m 'in' k" := (bindR m (fun x => k))
  (at level 10, x name, m at level 100, k at level 200).

(** [a || b] on object references: an object is truthy, [undefined] is not. *)
Definition js_or {A} (a b : option A) : option A :=
  match a with
  | Some x => Some x
  | None => b
  end.

(** [array.forEach(callback)] where the callback mutates one object [s] and
    may throw; a throw leaves the loop. *)
Fixpoint forEach {A S} (callback : A → S → Result S) (array : list A) (s : S)
  : Result S :=
  match array with
  | [] => Return s
  | x :: rest => try! s' := callback x s in forEach callback rest s'
  end.

(** ** Asynchronous functions

    An [async] function runs against a world [W] (the state it can reach and
    the calls it has issued), changes it, and resolves with a value or rejects
    with a thrown error. *)

Definition Async (W A : Type) : Type := W → Result A * W.

Definition ret {W A} (a : A) : Async W A := λ w, (Return a, w).
Definition throw {W A} (e : JsError) : Async W A := λ w, (Throw e, w).
Definition bindA {W A B} (m : Async W A) (k : A → Async W B) : Async W B :=
  λ w, match m w with
       | (Return a, w') => k a w'
       | (Throw e, w') => (Throw e, w')
       end.
Definition ofResult {W A} (r : Result A) : Async W A := λ w, (r, w).
Definition tryCatch {W A} (body : Async W A) (handler : JsError → Async W A)
  : Async W A :=
  λ w, match body w with
       | (Return a, w') => (Return a, w')
       | (Throw e, w') => handler e w'
       end.

Notation "'await!' x ':=' m 'in' k" := (bindA m (fun x => k))
  (at level 10, x name, m at level 100, k at level 200).

(** [Promise.all]: every promise runs to its end; the result is the list of
    their values, or the first rejection. The fetches joined here are
    independent of one another; they are run in the order of the array. *)
Fixpoint Promise_all {W A} (promises : list (Async W A)) : Async W (list A) :=
  match promises with
  | [] => ret []
  | p :: rest =>
      λ w, match p w with
           | (Return a, w') =>
               match Promise_all rest w' with
               | (Return values, w'') => (Return (a :: values), w'')
               | (Throw e, w'') => (Throw e, w'')
               end
           | (Throw e, w') => (Throw e, (Promise_all rest w').2)
           end
  end.

(** * Shared types *)

(** Modelled from the spec: [shared/types] is not among the sources. A node
    has a name, an implementation tag, a version, a status and ports, and a
    lightning node refers to its backend by name. The status values are the
    keys of the button table of the network actions; the implementation tags
    are the keys of [Record<NodeImplementation, _>]: the three lightning tags
    the docker service dispatches on, and the two bitcoin tags. *)
Module Status.
Inductive t : Type := Starting | Started | Stopping | Stopped | Error.
End Status.

Inductive LightningImplementation : Type := LND | c_lightning | eclair.
Inductive BitcoinImplementation : Type := bitcoind | btcd.
Inductive NodeImplementation : Type :=
  | LightningImpl (i : LightningImplementation)
  | BitcoinImpl (i : BitcoinImplementation).

Global Instance Status_eq_dec : EqDecision Status.t.
Proof. solve_decision. Defined.
Global Instance LightningImplementation_eq_dec : EqDecision LightningImplementation.
Proof. solve_decision. Defined.
Global Instance BitcoinImplementation_eq_dec : EqDecision BitcoinImplementation.
Proof. solve_decision. Defined.
Global Instance NodeImplementation_eq_dec : EqDecision NodeImplementation.
Proof. solve_decision. Defined.

(** The identity every node shares; [Impl] is the type of its tag. *)
Record CommonNode {Impl : Type} : Type := {
  networkId : Z;
  name : string;
  implementation : Impl;
  version : string;
  status : Status.t;
  ports : list (string * Z);
}.
Arguments CommonNode Impl : clear implicits.

Definition BitcoinNode : Type := CommonNode BitcoinImplementation.

Record LightningNode : Type := {
  lightning_common :> CommonNode LightningImplementation;
  backendName : string;
}.

(** The casts of [LndNode], [CLightningNode] and [EclairNode] change no data. *)
Definition LndNode : Type := LightningNode.
Definition CLightningNode : Type := LightningNode.
Definition EclairNode : Type := LightningNode.

Definition retag {I J} (f : I → J) (n : CommonNode I) : CommonNode J :=
  {| networkId := networkId n; name := name n; implementation := f (implementation n);
     version := version n; status := status n; ports := ports n |}.

Definition commonOfBitcoin (n : BitcoinNode) : CommonNode NodeImplementation :=
  retag BitcoinImpl n.
Definition commonOfLightning (n : LightningNode) : CommonNode NodeImplementation :=
  retag LightningImpl n.

Record NetworkNodes : Type := {
  bitcoin : list BitcoinNode;
  lightning : list LightningNode;
}.

(** [autoMineMode] is a numeric enumeration of the network store model. *)
Module Network.
Record t : Type := {
  id : Z;
  name : string;
  status : Status.t;
  path : string;
  autoMineMode : Z;
  nodes : NetworkNodes;
}.
End Network.

(** The names of all the nodes of a network, bitcoin nodes first. *)
Definition nodeNames (network : Network.t) : list string :=
  (name <$> bitcoin (Network.nodes network))
  ++ ((λ n : LightningNode, name n) <$> lightning (Network.nodes network)).

(** The persisted root document; the charts are opaque layout data. *)
Module NetworksFile.
Record t {IChart : Type} : Type := {
  version : string;
  networks : list Network.t;
  charts : gmap Z IChart;
}.
Arguments t IChart : clear implicits.
End NetworksFile.

(** * The compose file *)

Module ComposeFile.

(** Modelled from the spec: the [ComposeFile] class ([./composeFile]) is not
    among the sources. The document declares one service per node, named by
    the node's name, referencing the node's implementation/version image and
    its ports; a lightning service's init command references its backend's
    service name. The services of a compose document are a mapping from
    the service name to its definition. *)
Record ComposeService : Type := {
  image : NodeImplementation * string;
  exposed : list (string * Z);
  backendService : option string;
}.

Record ComposeContent : Type := {
  services : gmap string ComposeService;
}.

Record t : Type := { content : ComposeContent }.

Definition new : t := {| content := {| services := ∅ |} |}.

Definition setService (file : t) (nm : string) (svc : ComposeService) : t :=
  {| content := {| services := <[nm := svc]> (services (content file)) |} |}.

Definition bitcoinService (node : BitcoinNode) : ComposeService :=
  {| image := (BitcoinImpl (implementation node), version node);
     exposed := ports node;
     backendService := None |}.

Definition lightningService (node : LightningNode) (backend : BitcoinNode)
  : ComposeService :=
  {| image := (LightningImpl (implementation node), version node);
     exposed := ports node;
     backendService := Some (name backend) |}.

Definition addBitcoind (node : BitcoinNode) (file : t) : t :=
  setService file (name node) (bitcoinService node).

(** Modelled from the spec: the lightning methods read the backend's name.
    The caller can pass [undefined] (an empty bitcoin sequence has no first
    node); reading a property of [undefined] is a [TypeError]. *)
Definition addLightning (node : LightningNode) (backend : option BitcoinNode)
    (file : t) : Result t :=
  match backend with
  | Some b => Return (setService file (name node) (lightningService node b))
  | None => Throw (TypeError "Cannot read properties of undefined")
  end.

Definition addLnd (node : LndNode) := addLightning node.
Definition addClightning (node : CLightningNode) := addLightning node.
Definition addEclair (node : EclairNode) := addLightning node.

End ComposeFile.

(** * The docker service

    The log lines ([info], [debug]) of the service are left out: they change
    neither what is called nor what is returned. *)

Module DockerService.

(** ** What the service talks to *)

Inductive ComposeCommand : Type :=
  | version
  | upAll
  | down
  | upOne (service : string)
  | stopOne (service : string)
  | rm (service : string).

Record IDockerComposeOptions : Type := {
  cwd : string;
  env : gmap string string;
  executablePath : option string;
}.

Record IDockerComposeResult : Type := {
  exitCode : Z;
  out : string;
  err : string;
}.

Record ImageInfo : Type := { RepoTags : option (list string) }.

Record DockerVersions : Type := { docker : string; compose : string }.

(** Every call that leaves the process, in the order it is issued. *)
Inductive Event : Type :=
  | DockerVersion
  | ListImages
  | Compose (cmd : ComposeCommand) (opts : IDockerComposeOptions)
  | EnsureDir (dir : string)
  | Copy (src dest : string).

(** A compose promise settles with a result either way: the library rejects
    with the result of a command that exits with a failure. *)
Inductive Settled : Type :=
  | Fulfilled (result : IDockerComposeResult)
  | Rejected (e : IDockerComposeResult).

(** The container runtime and the host file system: what each call answers,
    given the calls issued before it. *)
Record Runtime : Type := {
  docker_version : list Event → Result string;
  docker_listImages : list Event → Result (list ImageInfo);
  compose_run : list Event → ComposeCommand → IDockerComposeOptions → Settled;
  fs_ensureDir : list Event → string → Result unit;
  fs_copy : list Event → string → string → gmap string string
            → Result (gmap string string);
}.

(** The service object ([setPaths]), the files and directories on disk, and
    the calls issued so far. *)
Record World : Type := {
  dockerSocketPath : option string;
  composeFilePath : option string;
  files : gmap string string;
  dirs : gset string;
  trace : list Event;
}.

Definition record (ev : Event) (w : World) : World :=
  {| dockerSocketPath := dockerSocketPath w; composeFilePath := composeFilePath w;
     files := files w; dirs := dirs w; trace := trace w ++ [ev] |}.

Definition setFiles (fs : gmap string string) (w : World) : World :=
  {| dockerSocketPath := dockerSocketPath w; composeFilePath := composeFilePath w;
     files := fs; dirs := dirs w; trace := trace w |}.

Definition addDir (dir : string) (w : World) : World :=
  {| dockerSocketPath := dockerSocketPath w; composeFilePath := composeFilePath w;
     files := files w; dirs := {[dir]} ∪ dirs w; trace := trace w |}.

(** The events a call adds to the trace. *)
Definition issued {A} (m : Async World A) (w : World) : list Event :=
  drop (length (trace w)) (trace (m w).2).

(** ** Libraries and constants *)

(** What the service imports from outside the repository ([strip-ansi],
    [js-yaml], [JSON], [path], [os], [electron]) and the constants of
    [utils/constants] and [utils/config], which are not among the sources. *)
Record Library {IChart : Type} : Type := {
  stripAnsi : string → string;
  yaml_dump : ComposeFile.ComposeContent → string;
  JSON_stringify_result : IDockerComposeResult → string;
  JSON_stringify : NetworksFile.t IChart → string;
  JSON_parse : string → Result (NetworksFile.t IChart);
  trim : string → string;
  join : string → string → string;
  dirname : string;
  process_env : gmap string string;
  remote_process_env : option (gmap string string);
  isLinux : bool;
  userInfo : Z * Z;
  NODE_ENV : option string;
  APP_VERSION : string;
  networksPath : string;
  legacyDataPath : string;
  nodePath : Network.t → NodeImplementation → string → string;
  clightning_dataDir : string;
  clightning_apiDir : string;
  migrations : list (string * (NetworksFile.t IChart → NetworksFile.t IChart));
}.
Arguments Library IChart : clear implicits.

Section Service.

Context {IChart : Type} (lib : Library IChart) (rt : Runtime).

(** ** Primitive calls *)

Definition docker_version_call : Async World string :=
  λ w, (docker_version rt (trace w), record DockerVersion w).

Definition docker_listImages_call : Async World (list ImageInfo) :=
  λ w, (docker_listImages rt (trace w), record ListImages w).

(** [ensureDir] of [fs-extra]: the directory exists afterwards, unless the
    file system refuses. *)
Definition ensureDir (dir : string) : Async World unit :=
  λ w, match fs_ensureDir rt (trace w) dir with
       | Return _ => (Return (), addDir dir (record (EnsureDir dir) w))
       | Throw e => (Throw e, record (EnsureDir dir) w)
       end.

(** [copy] of [fs-extra]. *)
Definition copy (src dest : string) : Async World unit :=
  λ w, match fs_copy rt (trace w) src dest (files w) with
       | Return fs => (Return (), setFiles fs (record (Copy src dest) w))
       | Throw e => (Throw e, record (Copy src dest) w)
       end.

(** Modelled from the spec: [utils/files] is not among the sources. [write]
    overwrites the file at the path, [read] returns what the file holds and
    [exists] tells whether the path is on disk. *)
Definition write (path content : string) : Async World unit :=
  λ w, (Return (), setFiles (<[path := content]> (files w)) w).

Definition read (path : string) : Async World string :=
  λ w, match files w !! path with
       | Some content => (Return content, w)
       | None => (Throw (Error ("ENOENT: no such file or directory, open " +:+ path)), w)
       end.

Definition exists_ (path : string) : Async World bool :=
  λ w, (Return (bool_decide (is_Some (files w !! path) ∨ path ∈ dirs w)), w).

(** ** The service *)

Definition setPaths (dockerSocketPath' composeFilePath' : string) : Async World unit :=
  λ w, (Return (),
        {| dockerSocketPath := if decide (dockerSocketPath' = "") then None
                               else Some dockerSocketPath';
           composeFilePath := if decide (composeFilePath' = "") then None
                              else Some composeFilePath';
           files := files w; dirs := dirs w; trace := trace w |}).

(** Returns options for all docker compose calls. *)
Definition getOpts (network : option Network.t) : Async World IDockerComposeOptions :=
  λ w,
    let opts_cwd := match network with
                    | Some n => Network.path n
                    | None => dirname lib
                    end in
    let opts_env := default ∅ (remote_process_env lib) ∪ process_env lib in
    let opts_env :=
      if isLinux lib then
        <["GROUPID" := pretty (userInfo lib).2]>
          (<["USERID" := pretty (userInfo lib).1]> opts_env)
      else opts_env in
    (Return {| cwd := opts_cwd; env := opts_env;
               executablePath := composeFilePath w |}, w).

(** Helper method to trap and format exceptions thrown. *)
Definition execute (cmd : ComposeCommand) (opts : IDockerComposeOptions)
  : Async World IDockerComposeResult :=
  λ w,
    let w' := record (Compose cmd opts) w in
    match compose_run rt (trace w) cmd opts with
    | Fulfilled result =>
        let result := {| exitCode := exitCode result;
                         out := stripAnsi lib (out result);
                         err := err result |} in
        let result := {| exitCode := exitCode result;
                         out := out result;
                         err := stripAnsi lib (err result) |} in
        (Return result, w')
    | Rejected e =>
        let e := {| exitCode := exitCode e; out := out e;
                    err := stripAnsi lib (err e) |} in
        (Throw (Error (if decide (err e = "") then JSON_stringify_result lib e
                       else err e)), w')
    end.

(** The reading of [execute] in which the colour codes are stripped from both
    texts of every invocation, failed or not, before anything is made of
    them. It is not the code: [execute] is compared with it. *)
Definition stripBoth (result : IDockerComposeResult) : IDockerComposeResult :=
  {| exitCode := exitCode result;
     out := stripAnsi lib (out result);
     err := stripAnsi lib (err result) |}.

Definition execute_strippingBoth (cmd : ComposeCommand) (opts : IDockerComposeOptions)
  : Async World IDockerComposeResult :=
  λ w,
    let w' := record (Compose cmd opts) w in
    match compose_run rt (trace w) cmd opts with
    | Fulfilled result => (Return (stripBoth result), w')
    | Rejected e =>
        let e := stripBoth e in
        (Throw (Error (if decide (err e = "") then JSON_stringify_result lib e
                       else err e)), w')
    end.

(** Gets the versions of docker and docker-compose installed. *)
Definition getVersions (throwOnError : bool) : Async World DockerVersions :=
  let versions := {| docker := ""; compose := "" |} in
  await! versions :=
    tryCatch
      (await! dockerVersion := docker_version_call in
       ret {| docker := dockerVersion; compose := compose versions |})
      (λ error, if throwOnError then throw error else ret versions) in
  await! versions :=
    tryCatch
      (await! opts := getOpts None in
       await! composeVersion := execute version opts in
       ret {| docker := docker versions;
              compose := trim lib (out composeVersion) |})
      (λ error, if throwOnError then throw error else ret versions) in
  ret versions.

(** [array.indexOf(x)]: the index of the first element equal to [x], or -1. *)
Fixpoint indexOf (array : list string) (x : string) : Z :=
  match array with
  | [] => -1
  | y :: rest =>
      if decide (y = x) then 0
      else let i := indexOf rest x in
           if decide (i = -1) then -1 else i + 1
  end%Z.

(** [array.filter((element, index) => ...)], from index [i] on. *)
Fixpoint filterIndexed {A} (p : A → Z → bool) (array : list A) (i : Z) : list A :=
  match array with
  | [] => []
  | x :: rest =>
      if p x i then x :: filterIndexed p rest (i + 1)%Z
      else filterIndexed p rest (i + 1)%Z
  end.

(** Gets a list of the polar images that have already been pulled. *)
Definition getImages : Async World (list string) :=
  tryCatch
    (await! allImages := docker_listImages_call in
     let imageNames :=
       List.filter (λ n, bool_decide (n ≠ "<none>:<none>"))
         (concat ((λ i, default [] (RepoTags i)) <$> allImages)) in
     let uniqueNames :=
       filterIndexed (λ image index, bool_decide (indexOf imageNames image = index))
         imageNames 0%Z in
     ret uniqueNames)
    (λ error, ret []).

(** The backend of a lightning node: the bitcoin node it names, or else the
    first one ([bitcoin.find(n => n.name === backendName) || bitcoin[0]]). *)
Definition findBackend (bitcoin : list BitcoinNode) (backendName : string)
  : option BitcoinNode :=
  js_or (List.find (λ n, bool_decide (name n = backendName)) bitcoin)
        (bitcoin !! 0%nat).

(** The invariant of a network in the data model: the backend reference of
    every lightning node resolves to a bitcoin node of the same network (the
    first one when no bitcoin node has the name). *)
Definition backendsResolve (network : Network.t) : Prop :=
  Forall (λ node : LightningNode,
            is_Some (findBackend (bitcoin (Network.nodes network)) (backendName node)))
         (lightning (Network.nodes network)).

(** The callback of [lightning.forEach] in [saveComposeFile]. *)
Definition addLightningNode (bitcoin : list BitcoinNode) (node : LightningNode)
    (file : ComposeFile.t) : Result ComposeFile.t :=
  try! file :=
    (if decide (implementation node = LND) then
       let lnd : LndNode := node in
       let backend := findBackend bitcoin (backendName lnd) in
       ComposeFile.addLnd lnd backend file
     else Return file) in
  try! file :=
    (if decide (implementation node = c_lightning) then
       let cln : CLightningNode := node in
       let backend := findBackend bitcoin (backendName cln) in
       ComposeFile.addClightning cln backend file
     else Return file) in
  try! file :=
    (if decide (implementation node = eclair) then
       let eclair : EclairNode := node in
       let backend := findBackend bitcoin (backendName eclair) in
       ComposeFile.addEclair eclair backend file
     else Return file) in
  Return file.

(** The compose file of a network, before it is dumped: the two [forEach]
    loops of [saveComposeFile]. *)
Definition composeFileOf (network : Network.t) : Result ComposeFile.t :=
  let file := ComposeFile.new in
  let bitcoin := bitcoin (Network.nodes network) in
  let lightning := lightning (Network.nodes network) in
  try! file := forEach (λ node file, Return (ComposeFile.addBitcoind node file))
                 bitcoin file in
  forEach (addLightningNode bitcoin) lightning file.

(** The services a network asks for, in the order [saveComposeFile] adds
    them: one entry for each bitcoin node, then one for each lightning node
    that has a backend. *)
Definition bitcoinEntries (bitcoin : list BitcoinNode)
  : list (string * ComposeFile.ComposeService) :=
  (λ node, (name node, ComposeFile.bitcoinService node)) <$> bitcoin.

Definition lightningEntries (bitcoin : list BitcoinNode) (lightning : list LightningNode)
  : list (string * ComposeFile.ComposeService) :=
  omap (λ node : LightningNode,
          match findBackend bitcoin (backendName node) with
          | Some backend => Some (name node, ComposeFile.lightningService node backend)
          | None => None
          end) lightning.

Definition setServices (file : ComposeFile.t)
    (entries : list (string * ComposeFile.ComposeService)) : ComposeFile.t :=
  foldl (λ file entry, ComposeFile.setService file entry.1 entry.2) file entries.

(** Save a docker-compose.yml file for the given network. *)
Definition saveComposeFile (network : Network.t) : Async World unit :=
  await! file := ofResult (composeFileOf network) in
  let yml := yaml_dump lib (ComposeFile.content file) in
  let path := join lib (Network.path network) "docker-compose.yml" in
  write path yml.

(** Creates the directories of the nodes, so that their owner is the current
    host user. *)
Fixpoint ensureDirs (network : Network.t) (nodes : list (CommonNode NodeImplementation))
  : Async World unit :=
  match nodes with
  | [] => ret ()
  | node :: rest =>
      let nodeDir := nodePath lib network (implementation node) (name node) in
      await! _ := ensureDir nodeDir in
      await! _ :=
        (if decide (implementation node = LightningImpl c_lightning) then
           await! _ := ensureDir (join lib nodeDir (clightning_dataDir lib)) in
           ensureDir (join lib nodeDir (clightning_apiDir lib))
         else ret ()) in
      ensureDirs network rest
  end.

(** Start a network using docker-compose. *)
Definition start (network : Network.t) : Async World unit :=
  let bitcoin := bitcoin (Network.nodes network) in
  let lightning := lightning (Network.nodes network) in
  await! _ := ensureDirs network
                ((commonOfBitcoin <$> bitcoin) ++ (commonOfLightning <$> lightning)) in
  await! opts := getOpts (Some network) in
  await! result := execute upAll opts in
  ret ().

(** Stop a network using docker-compose. *)
Definition stop (network : Network.t) : Async World unit :=
  await! opts := getOpts (Some network) in
  await! result := execute down opts in
  ret ().

(** Stops a single service using docker-compose. *)
Definition stopNode (network : Network.t) (node : CommonNode NodeImplementation)
  : Async World unit :=
  await! opts := getOpts (Some network) in
  await! result := execute (stopOne (name node)) opts in
  ret ().

(** Starts a single service using docker-compose. *)
Definition startNode (network : Network.t) (node : CommonNode NodeImplementation)
  : Async World unit :=
  await! _ := ensureDirs network [node] in
  (* make sure the docker container is stopped. If it is already started in an
     error state then starting it would have no effect *)
  await! _ := stopNode network node in
  await! opts := getOpts (Some network) in
  await! result := execute (upOne (name node)) opts in
  ret ().

(** Removes a single service from the network using docker-compose. *)
Definition removeNode (network : Network.t) (node : CommonNode NodeImplementation)
  : Async World unit :=
  await! opts := getOpts (Some network) in
  await! result := execute (stopOne (name node)) opts in
  await! opts := getOpts (Some network) in
  await! result := execute (rm (name node)) opts in
  ret ().

(** Saves the given networks to disk. *)
Definition saveNetworks (data : NetworksFile.t IChart) : Async World unit :=
  let json := JSON_stringify lib data in
  let path := join lib (networksPath lib) "networks.json" in
  write path json.

(** Copies the network data from the v0.1.0 path to the new path. *)
Definition copyLegacyData : Async World unit :=
  let legacyPath := join lib (legacyDataPath lib) "networks" in
  tryCatch (copy legacyPath (networksPath lib)) (λ error, ret ()).

(** Modelled from the spec: [utils/migrations] is not among the sources. Each
    migration step is a pure function from one schema shape to the next; the
    steps are applied in sequence from the document's recorded version up to
    the current version, and a version that is not recognised is an error.
    [migrations lib] lists each older version with the step that leaves it. *)
Fixpoint migrateFrom (steps : list (string * (NetworksFile.t IChart → NetworksFile.t IChart)))
    (file : NetworksFile.t IChart) : option (NetworksFile.t IChart) :=
  match steps with
  | [] => None
  | (v, step) :: rest =>
      if decide (NetworksFile.version file = v)
      then Some (foldl (λ f s, s.2 f) file steps)
      else migrateFrom rest file
  end.

Definition migrateNetworksFile (file : NetworksFile.t IChart)
  : Result (NetworksFile.t IChart) :=
  if decide (NetworksFile.version file = APP_VERSION lib) then Return file
  else match migrateFrom (migrations lib) file with
       | Some file =>
           Return {| NetworksFile.version := APP_VERSION lib;
                     NetworksFile.networks := NetworksFile.networks file;
                     NetworksFile.charts := NetworksFile.charts file |}
       | None => Throw (Error "unrecognised networks file version")
       end.

(** Loads a list of networks from the file system. *)
Definition loadNetworks : Async World (NetworksFile.t IChart) :=
  let path := join lib (networksPath lib) "networks.json" in
  (* copy network data from previous version path if necessary *)
  await! legacyNetworksExist := exists_ (join lib (legacyDataPath lib) "networks") in
  await! pathExists := exists_ path in
  await! _ := (if negb pathExists && legacyNetworksExist then copyLegacyData
               else ret ()) in
  await! pathExists := exists_ path in
  if pathExists then
    await! json := read path in
    await! data := ofResult (JSON_parse lib json) in
    (* migrate data when the version differs or running locally *)
    await! data :=
      (if bool_decide (NetworksFile.version data ≠ APP_VERSION lib)
          || bool_decide (NODE_ENV lib ≠ Some "production")
       then
         await! data := ofResult (migrateNetworksFile data) in
         await! _ := saveNetworks data in
         ret data
       else ret data) in
    ret data
  else
    ret {| NetworksFile.version := APP_VERSION lib;
           NetworksFile.networks := [];
           NetworksFile.charts := ∅ |}.

End Service.

End DockerService.

(** * The bitcoind store model *)

Module BitcoindModel.

Definition getNetworkBackendId {I} (node : CommonNode I) : string :=
  pretty (networkId node) +:+ "-" +:+ name node.

(** A string of decimal digits. *)
Fixpoint digits (s : string) : Prop :=
  match s with
  | "" => True
  | String c s => is_Some (Ascii.is_nat c) ∧ digits s
  end.

Record BitcoindNodeModel {ChainInfo WalletInfo : Type} : Type := {
  chainInfo : option ChainInfo;
  walletInfo : option WalletInfo;
}.
Arguments BitcoindNodeModel ChainInfo WalletInfo : clear implicits.

Section Model.

Context {ChainInfo WalletInfo Amount : Type}.

(** The calls that leave the store, and the reducer actions it dispatches,
    in the order they happen. *)
Inductive Event : Type :=
  | CallGetBlockchainInfo (node : BitcoinNode)
  | CallGetWalletInfo (node : BitcoinNode)
  | CallMine (numBlocks : Z) (node : BitcoinNode)
  | CallSendFunds (node : BitcoinNode) (addr : string) (amount : Amount)
  | Delay (ms : Z)
  | SetInfo (node : BitcoinNode) (chainInfo : ChainInfo) (walletInfo : WalletInfo).

(** The bitcoind service behind the store ([injections.bitcoindService]):
    what each call answers, given what happened before it. *)
Record BitcoindLibrary : Type := {
  service_getBlockchainInfo : list Event → BitcoinNode → Result ChainInfo;
  service_getWalletInfo : list Event → BitcoinNode → Result WalletInfo;
  service_mine : list Event → Z → BitcoinNode → Result (list string);
  service_sendFunds : list Event → BitcoinNode → string → Amount → Result string;
}.

(** The state of the model. The key of [nodes] must be unique across
    networks: [getNetworkBackendId node]. *)
Record State : Type := {
  nodes : gmap string (BitcoindNodeModel ChainInfo WalletInfo);
}.

Record Store : Type := {
  state : State;
  trace : list Event;
}.

Definition record (ev : Event) (s : Store) : Store :=
  {| state := state s; trace := trace s ++ [ev] |}.

(** The events a thunk adds to the trace. *)
Definition issued {A} (m : Async Store A) (s : Store) : list Event :=
  drop (length (trace s)) (trace (m s).2).

(** The nodes whose info a run of events sets. *)
Definition refreshed (evs : list Event) : list BitcoinNode :=
  omap (λ ev, match ev with SetInfo node _ _ => Some node | _ => None end) evs.

(** ** Reducer actions *)

Definition removeNode (node : BitcoinNode) (st : State) : State :=
  {| nodes := delete (getNetworkBackendId node) (nodes st) |}.

Definition clearNodes (st : State) : State :=
  {| nodes := ∅ |}.

Definition setInfo (node : BitcoinNode) (chainInfo' : ChainInfo)
    (walletInfo' : WalletInfo) (st : State) : State :=
  let id := getNetworkBackendId node in
  let nodes1 := match nodes st !! id with
                | None => <[id := {| chainInfo := None; walletInfo := None |}]> (nodes st)
                | Some _ => nodes st
                end in
  let nodes2 := alter (λ m, {| chainInfo := Some chainInfo';
                               walletInfo := walletInfo m |}) id nodes1 in
  let nodes3 := alter (λ m, {| chainInfo := chainInfo m;
                               walletInfo := Some walletInfo' |}) id nodes2 in
  {| nodes := nodes3 |}.

(** ** Thunks *)

(** [l] is the translation of a message key; [networkById] is the computed
    property of the network model the store exposes, which rejects an id it
    does not know. Neither is among the sources. *)
Context (l : string → string) (networkById : Z → Result Network.t).
Context (bitcoindService : BitcoindLibrary).

Definition call {A} (ev : Event) (answer : list Event → Result A) : Async Store A :=
  λ s, (answer (trace s), record ev s).

Definition dispatch (ev : Event) (action : State → State) : Async Store unit :=
  λ s, (Return (), {| state := action (state s); trace := trace s ++ [ev] |}).

Definition delay (ms : Z) : Async Store unit :=
  λ s, (Return (), record (Delay ms) s).

Definition getInfo (node : BitcoinNode) : Async Store unit :=
  await! chainInfo := call (CallGetBlockchainInfo node)
                        (λ h, service_getBlockchainInfo bitcoindService h node) in
  await! walletInfo := call (CallGetWalletInfo node)
                         (λ h, service_getWalletInfo bitcoindService h node) in
  dispatch (SetInfo node chainInfo walletInfo) (setInfo node chainInfo walletInfo).

(** [blocks] is a count of blocks, an integer. *)
Definition mine (blocks : Z) (node : BitcoinNode) : Async Store unit :=
  if decide (blocks < 0)%Z then throw (Error (l "mineError")) else
  await! _ := call (CallMine blocks node)
                (λ h, service_mine bitcoindService h blocks node) in
  (* add a small delay to allow the block to propagate to all nodes *)
  await! _ := delay 500 in
  (* update info for all bitcoin nodes *)
  await! network := ofResult (networkById (networkId node)) in
  await! _ := Promise_all
                (getInfo <$> List.filter (λ n, bool_decide (status n = Status.Started))
                               (bitcoin (Network.nodes network))) in
  ret ().

Definition sendFunds (node : BitcoinNode) (toAddress : string) (amount : Amount)
    (autoMine : bool) : Async Store string :=
  await! txid := call (CallSendFunds node toAddress amount)
                   (λ h, service_sendFunds bitcoindService h node toAddress amount) in
  await! _ := (if autoMine then mine 6 node else ret ()) in
  ret txid.

End Model.

End BitcoindModel.

(** * The network actions

    The part of the [NetworkActions] component that reads the store: the
    mining controls (block height, mine button) are rendered for the first
    bitcoin node of the network, when it is started and its chain info is in
    the cache. *)

Module NetworkActions.

Section Component.

Context {ChainInfo WalletInfo : Type}.

(** [status === Status.Starting || status === Status.Stopping]. *)
Definition loading (network : Network.t) : bool :=
  bool_decide (Network.status network = Status.Starting)
  || bool_decide (Network.status network = Status.Stopping).

(** [bitcoinNode.status === Status.Started && nodeState?.chainInfo]. The
    selector of the store reads the network id of [nodes.bitcoin[0]], which
    is a [TypeError] when the network has no bitcoin node. *)
Definition mineControls (network : Network.t)
    (st : @BitcoindModel.State ChainInfo WalletInfo) : Result bool :=
  match bitcoin (Network.nodes network) !! 0%nat with
  | None => Throw (TypeError "Cannot read properties of undefined")
  | Some bitcoinNode =>
      let nodeState :=
        BitcoindModel.nodes st !! BitcoindModel.getNetworkBackendId bitcoinNode in
      Return (bool_decide (status bitcoinNode = Status.Started)
              && match nodeState with
                 | Some model => bool_decide (is_Some (BitcoindModel.chainInfo model))
                 | None => false
                 end)
  end.

End Component.

End NetworkActions.

(** * An example network

    Two started bitcoin nodes and a stopped one, and two lightning nodes, one
    of which names a backend that is not in the network. *)

Module Demo.

Definition backend1 : BitcoinNode :=
  {| networkId := 1; name := "backend1"; implementation := bitcoind;
     version := "0.21.0"; status := Status.Started; ports := [("rpc", 18443%Z)] |}.

Definition backend2 : BitcoinNode :=
  {| networkId := 1; name := "backend2"; implementation := bitcoind;
     version := "0.21.0"; status := Status.Started; ports := [("rpc", 18444%Z)] |}.

Definition backend3 : BitcoinNode :=
  {| networkId := 1; name := "backend3"; implementation := btcd;
     version := "0.22.0"; status := Status.Stopped; ports := [("rpc", 18445%Z)] |}.

Definition alice : LightningNode :=
  {| lightning_common :=
       {| networkId := 1; name := "alice"; implementation := LND;
          version := "0.12.0-beta"; status := Status.Started;
          ports := [("rest", 8081%Z); ("grpc", 10001%Z)] |};
     backendName := "backend2" |}.

Definition bob : LightningNode :=
  {| lightning_common :=
       {| networkId := 1; name := "bob"; implementation := c_lightning;
          version := "0.9.3"; status := Status.Stopped; ports := [("rest", 8181%Z)] |};
     backendName := "backend9" |}.

Definition network1 : Network.t :=
  {| Network.id := 1; Network.name := "my network"; Network.status := Status.Started;
     Network.path := "/networks/1"; Network.autoMineMode := 0;
     Network.nodes := {| bitcoin := [backend1; backend2; backend3];
                         lightning := [alice; bob] |} |}.

(** A network whose only node is a lightning node. *)
Definition orphaned : Network.t :=
  {| Network.id := 2; Network.name := "orphaned"; Network.status := Status.Stopped;
     Network.path := "/networks/2"; Network.autoMineMode := 0;
     Network.nodes := {| bitcoin := []; lightning := [alice] |} |}.

Definition networksFile : NetworksFile.t unit :=
  {| NetworksFile.version := "1.4.1";
     NetworksFile.networks := [network1];
     NetworksFile.charts := {[ 1%Z := () ]} |}.

Definition lib : DockerService.Library unit :=
  {| DockerService.stripAnsi := λ s, s;
     DockerService.yaml_dump := λ content,
       String.concat "," (map_to_list (ComposeFile.services content)).*1;
     DockerService.JSON_stringify_result := λ e, "{}";
     DockerService.JSON_stringify := λ file, NetworksFile.version file;
     DockerService.JSON_parse := λ json,
       if decide (json = "1.4.1") then Return networksFile
       else Throw (Error "Unexpected token");
     DockerService.trim := λ s, s;
     DockerService.join := λ a b, a +:+ "/" +:+ b;
     DockerService.dirname := "/app";
     DockerService.process_env := ∅;
     DockerService.remote_process_env := None;
     DockerService.isLinux := true;
     DockerService.userInfo := (1000, 1000)%Z;
     DockerService.NODE_ENV := Some "development";
     DockerService.APP_VERSION := "1.4.1";
     DockerService.networksPath := "/networks";
     DockerService.legacyDataPath := "/legacy";
     DockerService.nodePath := λ network implementation name,
       Network.path network +:+ "/volumes/" +:+ name;
     DockerService.clightning_dataDir := "lightningd";
     DockerService.clightning_apiDir := "rest-api";
     DockerService.migrations := [] |}.

(** A runtime in which every call succeeds. *)
Definition rt : DockerService.Runtime :=
  {| DockerService.docker_version := λ _, Return "20.10.0";
     DockerService.docker_listImages := λ _, Return [];
     DockerService.compose_run := λ _ _ _,
       DockerService.Fulfilled
         {| DockerService.exitCode := 0; DockerService.out := "done";
            DockerService.err := "" |};
     DockerService.fs_ensureDir := λ _ _, Return ();
     DockerService.fs_copy := λ _ _ _ fs, Return fs |}.

(** A runtime that lists three images, two of which share a tag, one of which
    is untagged and one of which has no tags at all. *)
Definition rtImages : DockerService.Runtime :=
  {| DockerService.docker_version := λ _, Return "20.10.0";
     DockerService.docker_listImages := λ _,
       Return [ {| DockerService.RepoTags := Some ["polarlightning/lnd:0.12.0-beta";
                                                   "polarlightning/bitcoind:0.21.0"] |};
                {| DockerService.RepoTags := Some ["<none>:<none>"] |};
                {| DockerService.RepoTags := None |};
                {| DockerService.RepoTags := Some ["polarlightning/bitcoind:0.21.0";
                                                   "polarlightning/eclair:0.5.0"] |} ];
     DockerService.compose_run := λ _ _ _,
       DockerService.Rejected
         {| DockerService.exitCode := 1; DockerService.out := "";
            DockerService.err := "No such service" |};
     DockerService.fs_ensureDir := λ _ _, Return ();
     DockerService.fs_copy := λ _ _ _ fs, Return fs |}.

Definition world : DockerService.World :=
  {| DockerService.dockerSocketPath := None; DockerService.composeFilePath := None;
     DockerService.files := ∅; DockerService.dirs := ∅; DockerService.trace := [] |}.

(** A bitcoind service that answers every call; chain and wallet info are
    a block height and a balance. *)
Definition bitcoindService : @BitcoindModel.BitcoindLibrary Z Z Z :=
  {| BitcoindModel.service_getBlockchainInfo := λ _ _, Return 106%Z;
     BitcoindModel.service_getWalletInfo := λ _ _, Return 50%Z;
     BitcoindModel.service_mine := λ _ _ _, Return [];
     BitcoindModel.service_sendFunds := λ _ _ _ _, Return "txid" |}.

Definition networkById (id : Z) : Result Network.t :=
  if decide (id = 1%Z) then Return network1
  else Throw (Error "networkByIdErr").

Definition store : @BitcoindModel.Store Z Z Z :=
  {| BitcoindModel.state := {| BitcoindModel.nodes := ∅ |};
     BitcoindModel.trace := [] |}.

(** A runtime without a docker engine: the version probe and the image
    listing fail, the compose tool answers with coloured output. *)
Definition rtNoDocker : DockerService.Runtime :=
  {| DockerService.docker_version := λ _, Throw (Error "connect ENOENT");
     DockerService.docker_listImages := λ _, Throw (Error "connect ENOENT");
     DockerService.compose_run := λ _ _ _,
       DockerService.Fulfilled
         {| DockerService.exitCode := 0; DockerService.out := "1.27.4";
            DockerService.err := "" |};
     DockerService.fs_ensureDir := λ _ _, Throw (Error "EACCES");
     DockerService.fs_copy := λ _ _ _ _, Throw (Error "EACCES") |}.

(** A disk that holds the data of the previous version only. *)
Definition worldLegacy : DockerService.World :=
  {| DockerService.dockerSocketPath := None; DockerService.composeFilePath := None;
     DockerService.files := ∅; DockerService.dirs := {[ "/legacy/networks" ]};
     DockerService.trace := [] |}.

(** A document saved by an older version, and the libraries of a production
    build that knows how to migrate it. *)
Definition oldNetworksFile : NetworksFile.t unit :=
  {| NetworksFile.version := "0.2.0";
     NetworksFile.networks := [];
     NetworksFile.charts := ∅ |}.

Definition libProduction : DockerService.Library unit :=
  {| DockerService.stripAnsi := λ s, s;
     DockerService.yaml_dump := λ content,
       String.concat "," (map_to_list (ComposeFile.services content)).*1;
     DockerService.JSON_stringify_result := λ e, "{}";
     DockerService.JSON_stringify := λ file, NetworksFile.version file;
     DockerService.JSON_parse := λ json,
       if decide (json = "1.4.1") then Return networksFile
       else if decide (json = "0.2.0") then Return oldNetworksFile
       else if decide (json = "9.9.9")
         then Return {| NetworksFile.version := "9.9.9";
                        NetworksFile.networks := [];
                        NetworksFile.charts := ∅ |}
       else Throw (Error "Unexpected token");
     DockerService.trim := λ s, s;
     DockerService.join := λ a b, a +:+ "/" +:+ b;
     DockerService.dirname := "/app";
     DockerService.process_env := {[ "PATH" := "/usr/bin"; "USERID" := "0" ]};
     DockerService.remote_process_env := Some {[ "PATH" := "/usr/local/bin" ]};
     DockerService.isLinux := true;
     DockerService.userInfo := (1000, 1000)%Z;
     DockerService.NODE_ENV := Some "production";
     DockerService.APP_VERSION := "1.4.1";
     DockerService.networksPath := "/networks";
     DockerService.legacyDataPath := "/legacy";
     DockerService.nodePath := λ network implementation name,
       Network.path network +:+ "/volumes/" +:+ name;
     DockerService.clightning_dataDir := "lightningd";
     DockerService.clightning_apiDir := "rest-api";
     DockerService.migrations :=
       [("0.2.0", λ file,
           {| NetworksFile.version := NetworksFile.version file;
              NetworksFile.networks := NetworksFile.networks file;
              NetworksFile.charts := ∅ |})] |}.

Definition worldWith (json : string) : DockerService.World :=
  {| DockerService.dockerSocketPath := None; DockerService.composeFilePath := None;
     DockerService.files := {[ "/networks/networks.json" := json ]};
     DockerService.dirs := ∅; DockerService.trace := [] |}.

(** A bitcoind service whose node does not answer. *)
Definition bitcoindDown : @BitcoindModel.BitcoindLibrary Z Z Z :=
  {| BitcoindModel.service_getBlockchainInfo := λ _ _, Throw (Error "ECONNREFUSED");
     BitcoindModel.service_getWalletInfo := λ _ _, Throw (Error "ECONNREFUSED");
     BitcoindModel.service_mine := λ _ _ _, Throw (Error "ECONNREFUSED");
     BitcoindModel.service_sendFunds := λ _ _ _ _, Throw (Error "ECONNREFUSED") |}.

(** A bitcoind service that sends funds but cannot mine. *)
Definition bitcoindNoMining : @BitcoindModel.BitcoindLibrary Z Z Z :=
  {| BitcoindModel.service_getBlockchainInfo := λ _ _, Return 106%Z;
     BitcoindModel.service_getWalletInfo := λ _ _, Return 50%Z;
     BitcoindModel.service_mine := λ _ _ _, Throw (Error "ECONNREFUSED");
     BitcoindModel.service_sendFunds := λ _ _ _ _, Return "txid" |}.

(** A runtime whose copy of the legacy data brings a networks file. *)
Definition rtLegacy : DockerService.Runtime :=
  {| DockerService.docker_version := λ _, Return "20.10.0";
     DockerService.docker_listImages := λ _, Return [];
     DockerService.compose_run := λ _ _ _,
       DockerService.Fulfilled
         {| DockerService.exitCode := 0; DockerService.out := "done";
            DockerService.err := "" |};
     DockerService.fs_ensureDir := λ _ _, Return ();
     DockerService.fs_copy := λ _ _ _ fs,
       Return (<[ "/networks/networks.json" := "1.4.1" ]> fs) |}.

(** The colour sequences of a terminal, [ESC [ ... m], and a stand-in for
    [strip-ansi] that removes them. *)
Definition ESC : ascii := "027"%char.

Fixpoint stripColours (inSequence : bool) (text : string) : string :=
  match text with
  | EmptyString => EmptyString
  | String c rest =>
      if inSequence then stripColours (negb (bool_decide (c = "m"%char))) rest
      else if bool_decide (c = ESC) then stripColours true rest
      else String c (stripColours false rest)
  end.

(** The libraries of [lib] with that [strip-ansi], and a serialisation that
    shows the three fields of a result. *)
Definition libColour : DockerService.Library unit :=
  {| DockerService.stripAnsi := stripColours false;
     DockerService.yaml_dump := DockerService.yaml_dump lib;
     DockerService.JSON_stringify_result := λ e,
       "{exitCode:" +:+ pretty (DockerService.exitCode e)
       +:+ ",out:'" +:+ DockerService.out e
       +:+ "',err:'" +:+ DockerService.err e +:+ "'}";
     DockerService.JSON_stringify := DockerService.JSON_stringify lib;
     DockerService.JSON_parse := DockerService.JSON_parse lib;
     DockerService.trim := DockerService.trim lib;
     DockerService.join := DockerService.join lib;
     DockerService.dirname := DockerService.dirname lib;
     DockerService.process_env := DockerService.process_env lib;
     DockerService.remote_process_env := DockerService.remote_process_env lib;
     DockerService.isLinux := DockerService.isLinux lib;
     DockerService.userInfo := DockerService.userInfo lib;
     DockerService.NODE_ENV := DockerService.NODE_ENV lib;
     DockerService.APP_VERSION := DockerService.APP_VERSION lib;
     DockerService.networksPath := DockerService.networksPath lib;
     DockerService.legacyDataPath := DockerService.legacyDataPath lib;
     DockerService.nodePath := DockerService.nodePath lib;
     DockerService.clightning_dataDir := DockerService.clightning_dataDir lib;
     DockerService.clightning_apiDir := DockerService.clightning_apiDir lib;
     DockerService.migrations := DockerService.migrations lib |}.

(** A command that fails with a message in red on its output and nothing
    on its error channel. *)
Definition colouredFailure : DockerService.IDockerComposeResult :=
  {| DockerService.exitCode := 1;
     DockerService.out :=
       String ESC "[31m" +:+ "cannot start" +:+ String ESC "[0m";
     DockerService.err := "" |}.

Definition rtColour : DockerService.Runtime :=
  {| DockerService.docker_version := λ _, Return "20.10.0";
     DockerService.docker_listImages := λ _, Return [];
     DockerService.compose_run := λ _ _ _, DockerService.Rejected colouredFailure;
     DockerService.fs_ensureDir := λ _ _, Return ();
     DockerService.fs_copy := λ _ _ _ fs, Return fs |}.

Definition opts : DockerService.IDockerComposeOptions :=
  {| DockerService.cwd := "/networks/1"; DockerService.env := ∅;
     DockerService.executablePath := None |}.

(** A node of the same name as [backend1] in another network. *)
Definition backend1' : BitcoinNode :=
  {| networkId := 2; name := "backend1"; implementation := bitcoind;
     version := "0.21.0"; status := Status.Started; ports := [("rpc", 18443%Z)] |}.

End Demo.

(** * Properties of the bitcoind store model *)

Section BitcoindModelProperties.

Import BitcoindModel.

Context {ChainInfo WalletInfo Amount : Type}.
Context (l : string → string) (networkById : Z → Result Network.t).
Context (bitcoindService : @BitcoindLibrary ChainInfo WalletInfo Amount).

Local Abbreviation Store := (@Store ChainInfo WalletInfo Amount).
Local Abbreviation State := (@State ChainInfo WalletInfo).
Local Abbreviation mine := (mine l networkById bitcoindService).
Local Abbreviation getInfo := (getInfo bitcoindService).

Lemma setInfo_lookup (node : BitcoinNode) ci wi (st : State) :
  nodes (setInfo node ci wi st) !! getNetworkBackendId node
  = Some {| chainInfo := Some ci; walletInfo := Some wi |}.
Proof.
  unfold setInfo; simpl.
  destruct (nodes st !! getNetworkBackendId node) as [m|] eqn:Hm.
  - rewrite !lookup_alter_eq, Hm. done.
  - rewrite !lookup_alter_eq, lookup_insert_eq. done.
Qed.

Lemma setInfo_lookup_ne (node : BitcoinNode) ci wi (st : State) key :
  key ≠ getNetworkBackendId node →
  nodes (setInfo node ci wi st) !! key = nodes st !! key.
Proof.
  intros Hne. unfold setInfo; simpl.
  rewrite !lookup_alter_ne by done.
  destruct (nodes st !! getNetworkBackendId node); [done|].
  by rewrite lookup_insert_ne.
Qed.

(** C3: a negative block count is rejected with the mine error before the
    bitcoind service is called: no call is issued and the cached node info
    is what it was. *)
Theorem mine_negative_rejects (blocks : Z) (node : BitcoinNode) (s : Store) :
  (blocks < 0)%Z →
  (mine blocks node s).1 = Throw (Error (l "mineError"))
  ∧ issued (mine blocks node) s = []
  ∧ trace (mine blocks node s).2 = trace s
  ∧ state (mine blocks node s).2 = state s.
Proof.
  intros Hneg. unfold issued, BitcoindModel.mine.
  destruct (decide (blocks < 0)%Z) as [_|Hge]; [|lia].
  unfold throw; simpl. by rewrite drop_all.
Qed.

(** ** The composite key *)

Lemma append_cons a s t : String a s +:+ t = String a (s +:+ t).
Proof. reflexivity. Qed.

Lemma append_assoc s t u : (s +:+ t) +:+ u = s +:+ (t +:+ u).
Proof. induction s as [|a s IH]; [done|]. by rewrite !append_cons, IH. Qed.

Lemma digits_app s t : digits s → digits t → digits (s +:+ t).
Proof.
  induction s as [|a s IH]; [done|]. rewrite append_cons; simpl.
  intros [??] ?; auto.
Qed.

Lemma pretty_N_char_digit x : is_Some (Ascii.is_nat (pretty_N_char x)).
Proof. unfold pretty_N_char. repeat case_match; compute; eauto. Qed.

(** The decimal digits [pretty_N_go] puts in front of its accumulator. *)
Lemma pretty_N_go_digits x s :
  ∃ d, pretty_N_go x s = d +:+ s ∧ digits d ∧ ((0 < x)%N → d ≠ "").
Proof.
  revert s. induction (N.lt_wf_0 x) as [x _ IH]; intros s.
  assert (x = 0 ∨ 0 < x)%N as [->|Hpos] by lia.
  - exists "". rewrite pretty_N_go_0. split_and!; [done..|lia].
  - rewrite pretty_N_go_step by done.
    destruct (IH (x `div` 10)%N (N.div_lt x 10 Hpos eq_refl)
                 (String (pretty_N_char (x `mod` 10)) s)) as (d & -> & Hd & _).
    exists (d +:+ String (pretty_N_char (x `mod` 10)) "").
    rewrite append_assoc. split_and!; [done| |].
    + apply digits_app; [done|]. split; [apply pretty_N_char_digit|done].
    + intros _. destruct d; discriminate.
Qed.

(** A printed integer is a non-empty string of digits, after a dash when the
    integer is negative. *)
Lemma pretty_Z_shape (z : Z) :
  ∃ d, digits d ∧ d ≠ "" ∧ (pretty z = d ∨ pretty z = "-" +:+ d).
Proof.
  assert (∀ p : positive, ∃ d, digits d ∧ d ≠ "" ∧ pretty p = d) as Hpos.
  { intros p. unfold pretty, pretty_positive, pretty, pretty_N.
    rewrite decide_False by done.
    destruct (pretty_N_go_digits (N.pos p) "") as (d & Heq & Hd & Hne).
    exists d. split_and!; [done|apply Hne; lia|].
    rewrite Heq. clear. induction d as [|a d IH]; [done|].
    by rewrite append_cons, IH. }
  destruct z as [|p|p]; unfold pretty, pretty_Z.
  - exists "0". split_and!; [|done|by left]. split; [compute; eauto|done].
  - destruct (Hpos p) as (d & ? & ? & ?). exists d. auto.
  - destruct (Hpos p) as (d & ? & ? & Heq). exists d.
    split_and!; [done..|]. right. by rewrite <-Heq.
Qed.

Lemma digits_dash_inj d1 d2 n1 n2 :
  digits d1 → digits d2 →
  d1 +:+ "-" +:+ n1 = d2 +:+ "-" +:+ n2 → d1 = d2 ∧ n1 = n2.
Proof.
  revert d2. induction d1 as [|a d1 IH]; intros [|b d2] H1 H2 Heq.
  - by injection Heq.
  - rewrite append_cons in Heq. injection Heq as <- _.
    destruct H2 as [[? Hb] _]. discriminate Hb.
  - rewrite append_cons in Heq. injection Heq as -> _.
    destruct H1 as [[? Ha] _]. discriminate Ha.
  - rewrite !append_cons in Heq. injection Heq as -> Heq.
    destruct H1 as [_ H1], H2 as [_ H2].
    destruct (IH d2 H1 H2 Heq) as [-> ->]. done.
Qed.

(** The key determines the network id and the node name. *)
Lemma getNetworkBackendId_inj {I J} (n : CommonNode I) (m : CommonNode J) :
  getNetworkBackendId n = getNetworkBackendId m →
  networkId n = networkId m ∧ name n = name m.
Proof.
  unfold getNetworkBackendId. intros Heq.
  destruct (pretty_Z_shape (networkId n)) as (d1 & Hd1 & Hne1 & Hp1).
  destruct (pretty_Z_shape (networkId m)) as (d2 & Hd2 & Hne2 & Hp2).
  assert (pretty (networkId n) = pretty (networkId m) ∧ name n = name m)
    as [Hp ?]; [|split; [by apply (inj pretty)|done]].
  destruct Hp1 as [Hp1|Hp1], Hp2 as [Hp2|Hp2]; rewrite Hp1, Hp2 in Heq |- *.
  - destruct (digits_dash_inj d1 d2 (name n) (name m) Hd1 Hd2 Heq) as [-> ->].
    done.
  - exfalso. destruct d1 as [|a d1]; [done|].
    rewrite !append_cons in Heq. injection Heq as -> _.
    destruct Hd1 as [[? Ha] _]. discriminate Ha.
  - exfalso. destruct d2 as [|a d2]; [done|].
    rewrite !append_cons in Heq. injection Heq as <- _.
    destruct Hd2 as [[? Ha] _]. discriminate Ha.
  - rewrite !append_cons in Heq. injection Heq as Heq.
    destruct (digits_dash_inj d1 d2 (name n) (name m) Hd1 Hd2 Heq) as [-> ->].
    done.
Qed.

(** C10: the cache is keyed by the composite of network id and node name;
    [removeNode] deletes the entry under the node's key and no other: every
    entry under another key is unchanged, and so is the entry of every node
    that differs in network id or in name, a node of the same name in another
    network included. *)
Theorem removeNode_deletes_only_its_key (node : BitcoinNode) (st : State) :
  nodes (removeNode node st) !! getNetworkBackendId node = None
  ∧ (∀ key, key ≠ getNetworkBackendId node →
       nodes (removeNode node st) !! key = nodes st !! key)
  ∧ (∀ other : BitcoinNode,
       networkId other ≠ networkId node ∨ name other ≠ name node →
       nodes (removeNode node st) !! getNetworkBackendId other
       = nodes st !! getNetworkBackendId other)
  ∧ (∀ other : BitcoinNode,
       name other = name node → networkId other ≠ networkId node →
       nodes (removeNode node st) !! getNetworkBackendId other
       = nodes st !! getNetworkBackendId other)
  ∧ (∀ (n : BitcoinNode) (ci : ChainInfo) (wi : WalletInfo) (st0 : State),
       nodes (setInfo n ci wi st0) !! getNetworkBackendId n
       = Some {| chainInfo := Some ci; walletInfo := Some wi |}).
Proof.
  assert (∀ other : BitcoinNode,
       networkId other ≠ networkId node ∨ name other ≠ name node →
       nodes (removeNode node st) !! getNetworkBackendId other
       = nodes st !! getNetworkBackendId other) as Hother.
  { intros other Hne. unfold removeNode; simpl. apply lookup_delete_ne.
    intros Heq. apply getNetworkBackendId_inj in Heq as [??].
    destruct Hne; congruence. }
  split_and!.
  - unfold removeNode; simpl. apply lookup_delete_eq.
  - intros key Hne. unfold removeNode; simpl. by apply lookup_delete_ne.
  - done.
  - intros other _ Hid. apply Hother. by left.
  - intros. apply setInfo_lookup.
Qed.

(** ** Mining refreshes the started nodes *)

Lemma refreshed_app (evs1 evs2 : list (@Event ChainInfo WalletInfo Amount)) :
  refreshed (evs1 ++ evs2) = refreshed evs1 ++ refreshed evs2.
Proof. unfold refreshed. apply omap_app. Qed.

(** One fetch: two calls to the service, then the info is set. *)
Lemma getInfo_resolved (node : BitcoinNode) (s s' : Store) :
  getInfo node s = (Return (), s') →
  ∃ ci wi,
    trace s' = trace s ++ [CallGetBlockchainInfo node; CallGetWalletInfo node;
                           SetInfo node ci wi]
    ∧ state s' = setInfo node ci wi (state s).
Proof.
  unfold BitcoindModel.getInfo, bindA, call, dispatch; simpl.
  destruct (service_getBlockchainInfo _ _ _) as [ci|e]; [|done]. simpl.
  destruct (service_getWalletInfo _ _ _) as [wi|e]; [|done]. simpl.
  intros [= <-]. exists ci, wi. simpl. by rewrite <-!app_assoc.
Qed.

Lemma Promise_all_getInfo (ns : list BitcoinNode) (s s' : Store) values :
  Promise_all (getInfo <$> ns) s = (Return values, s') →
  ∃ evs,
    trace s' = trace s ++ evs
    ∧ refreshed evs = ns
    ∧ (∀ n, n ∈ ns →
         ∃ m ci wi, m ∈ ns ∧ getNetworkBackendId m = getNetworkBackendId n
           ∧ SetInfo m ci wi ∈ evs
           ∧ nodes (state s') !! getNetworkBackendId n
             = Some {| chainInfo := Some ci; walletInfo := Some wi |})
    ∧ (∀ key, key ∉ (getNetworkBackendId <$> ns) →
         nodes (state s') !! key = nodes (state s) !! key).
Proof.
  revert s s' values. induction ns as [|n ns IH]; intros s s' values; csimpl.
  - intros [= <- <-]. exists []. rewrite app_nil_r.
    split_and!; [done..| |done]. intros n Hn. by apply elem_of_nil in Hn.
  - destruct (getInfo n s) as [[[]|e] s1] eqn:Hn; [|done].
    destruct (Promise_all (getInfo <$> ns) s1) as [[vs|e] s2] eqn:Hrest; [|done].
    intros [= <- <-].
    apply getInfo_resolved in Hn as (ci & wi & Htr1 & Hst1).
    apply IH in Hrest as (evs & Htr2 & Href & Hset & Hframe).
    exists ([CallGetBlockchainInfo n; CallGetWalletInfo n; SetInfo n ci wi] ++ evs).
    split_and!.
    + by rewrite Htr2, Htr1, <-app_assoc.
    + rewrite refreshed_app, Href. done.
    + intros n' [->|Hn']%elem_of_cons.
      * destruct (decide (getNetworkBackendId n ∈ (getNetworkBackendId <$> ns)))
          as [Hin|Hnin].
        -- apply list_elem_of_fmap in Hin as (m & Hkey & Hm).
           destruct (Hset m Hm) as (m' & ci' & wi' & Hm' & Hkey' & Hev & Hlook).
           exists m', ci', wi'. split_and!.
           ++ by right.
           ++ congruence.
           ++ apply elem_of_app; by right.
           ++ by rewrite Hkey.
        -- exists n, ci, wi. split_and!; [by left|done| |].
           ++ apply elem_of_app; left. by do 2 right; left.
           ++ rewrite (Hframe _ Hnin), Hst1. apply setInfo_lookup.
      * destruct (Hset n' Hn') as (m' & ci' & wi' & Hm' & Hkey' & Hev & Hlook).
        exists m', ci', wi'. split_and!; [by right|done| |done].
        apply elem_of_app; by right.
    + intros key Hkey. rewrite not_elem_of_cons in Hkey.
      destruct Hkey as [Hne Hnin].
      rewrite (Hframe _ Hnin), Hst1. by apply setInfo_lookup_ne.
Qed.


End BitcoindModelProperties.

(** * Properties of the docker service *)

Section DockerServiceProperties.

Import DockerService.

Context {IChart : Type} (lib : Library IChart) (rt : Runtime).

(** ** Compose commands *)

(** C7: every compose command runs through [execute]. When the command
    succeeds, the result handed on has the colour codes stripped from both its
    output and its error text. When it fails, the codes are stripped from the
    error text only, the output text of the failure is left as it is, and
    what is thrown is one [Error] whose message is the stripped error text,
    or the serialised failure when that text is empty. Either way the command
    was issued once; and [execute] is the reading that strips both texts of
    every invocation except where a command fails with an empty error
    text. *)
Theorem execute_strips_and_normalises (cmd : ComposeCommand)
    (opts : IDockerComposeOptions) (w : World) :
  issued (execute lib rt cmd opts) w = [Compose cmd opts]
  ∧ (∀ result, compose_run rt (trace w) cmd opts = Fulfilled result →
       ∃ r, (execute lib rt cmd opts w).1 = Return r
            ∧ out r = stripAnsi lib (out result)
            ∧ err r = stripAnsi lib (err result)
            ∧ exitCode r = exitCode result)
  ∧ (∀ e, compose_run rt (trace w) cmd opts = Rejected e →
       ∃ message, (execute lib rt cmd opts w).1 = Throw (Error message)
            ∧ (stripAnsi lib (err e) ≠ "" → message = stripAnsi lib (err e))
            ∧ (stripAnsi lib (err e) = "" →
               message = JSON_stringify_result lib
                           {| exitCode := exitCode e; out := out e; err := "" |}))
  ∧ ((∀ e, compose_run rt (trace w) cmd opts = Rejected e →
           stripAnsi lib (err e) ≠ "") →
     execute lib rt cmd opts w = execute_strippingBoth lib rt cmd opts w).
Proof.
  unfold issued, execute, execute_strippingBoth, stripBoth. split_and!.
  - destruct (compose_run _ _ _ _); simpl; by rewrite drop_app_length.
  - intros result ->. simpl. eauto.
  - intros e ->. simpl. case_decide as Hempty.
    + eexists. split_and!; [done|done|]. intros _. by rewrite Hempty.
    + eexists. split_and!; [done|done|done].
  - intros Herr. destruct (compose_run _ _ _ _) as [result|e]; [done|].
    simpl. by rewrite !decide_False by by apply Herr.
Qed.

(** ** Listing images *)

Lemma not_elem_of_snoc {A} (l : list A) x y :
  x ∉ l ++ [y] ↔ (x ∉ l) ∧ x ≠ y.
Proof.
  rewrite not_elem_of_app, not_elem_of_cons, elem_of_nil. tauto.
Qed.

Lemma indexOf_range (array : list string) x :
  (-1 ≤ indexOf array x < Z.of_nat (length array))%Z.
Proof.
  induction array as [|y rest IH]; simpl; [lia|].
  repeat case_decide; lia.
Qed.

Lemma indexOf_elem_of (pre post : list string) x :
  x ∈ pre → (0 ≤ indexOf (pre ++ post) x < Z.of_nat (length pre))%Z.
Proof.
  induction pre as [|y pre IH]; simpl; [by intros ?%elem_of_nil|].
  intros [->|Hin]%elem_of_cons.
  - rewrite decide_True by done. lia.
  - specialize (IH Hin). repeat case_decide; lia.
Qed.

Lemma indexOf_first (pre post : list string) x :
  x ∉ pre → indexOf (pre ++ x :: post) x = Z.of_nat (length pre).
Proof.
  induction pre as [|y pre IH]; simpl.
  - intros _. by rewrite decide_True.
  - intros [Hne Hnin]%not_elem_of_cons. rewrite decide_False by done.
    rewrite (IH Hnin). case_decide; lia.
Qed.

(** Keeping the elements that stand at their own first index removes the
    duplicates: the elements seen before are [pre]. *)
Lemma filterIndexed_first_occurrences (pre array : list string) :
  let unique := filterIndexed
                  (λ image index, bool_decide (indexOf (pre ++ array) image = index))
                  array (Z.of_nat (length pre)) in
  NoDup unique ∧ ∀ x, x ∈ unique ↔ x ∈ array ∧ x ∉ pre.
Proof.
  revert pre. induction array as [|y rest IH]; intros pre; simpl.
  - split; [constructor|]. intros x. split; [by intros ?%elem_of_nil|].
    by intros [?%elem_of_nil _].
  - specialize (IH (pre ++ [y])). rewrite <-app_assoc in IH. simpl in IH.
    replace (Z.of_nat (length (pre ++ [y]))) with (Z.of_nat (length pre) + 1)%Z in IH
      by (rewrite length_app; simpl; lia).
    destruct IH as [Hnodup Hmem].
    case_bool_decide as Hidx.
    + assert (y ∉ pre) as Hy.
      { intros Hin. pose proof (indexOf_elem_of pre (y :: rest) y Hin). lia. }
      split.
      * constructor; [|done]. rewrite Hmem, not_elem_of_snoc. tauto.
      * intros x. rewrite !elem_of_cons, Hmem, not_elem_of_snoc.
        destruct (decide (x = y)) as [->|]; intuition congruence.
    + assert (y ∈ pre) as Hy.
      { destruct (decide (y ∈ pre)) as [|Hnin]; [done|].
        by rewrite (indexOf_first pre rest y Hnin) in Hidx. }
      split; [done|].
      intros x. rewrite Hmem, elem_of_cons, not_elem_of_snoc.
      destruct (decide (x = y)) as [->|]; intuition congruence.
Qed.

(** C8: [getImages] resolves whatever the image listing does. When the
    listing fails the result is empty; when it succeeds the result has no
    duplicates, does not hold the untagged sentinel, and holds exactly the
    other tags of the listed images. *)
Theorem getImages_never_throws (w : World) :
  ∃ images,
    (getImages rt w).1 = Return images
    ∧ NoDup images
    ∧ ("<none>:<none>" ∉ images)
    ∧ match docker_listImages rt (trace w) with
      | Throw _ => images = []
      | Return allImages =>
          ∀ tag, tag ∈ images ↔
                 (tag ≠ "<none>:<none>"
                  ∧ ∃ i tags, i ∈ allImages ∧ RepoTags i = Some tags ∧ tag ∈ tags)
      end.
Proof.
  unfold getImages, tryCatch, bindA, docker_listImages_call, ret.
  destruct (docker_listImages rt (trace w)) as [allImages|e]; simpl.
  - set (imageNames := List.filter _ _).
    destruct (filterIndexed_first_occurrences [] imageNames) as [Hnodup Hmem].
    simpl in Hnodup, Hmem.
    assert (∀ tag, tag ∈ imageNames ↔
              (tag ≠ "<none>:<none>"
               ∧ ∃ i tags, i ∈ allImages ∧ RepoTags i = Some tags ∧ tag ∈ tags))
      as Hnames.
    { intros tag. unfold imageNames.
      rewrite list_elem_of_In, filter_In, in_concat, bool_decide_eq_true.
      setoid_rewrite <-list_elem_of_In. split.
      - intros [(tags & (i & -> & Hi)%list_elem_of_fmap & Htag) Hne].
        split; [done|]. destruct (RepoTags i) as [tags|] eqn:Htags; simpl in Htag.
        + eauto.
        + by apply elem_of_nil in Htag.
      - intros [Hne (i & tags & Hi & Htags & Htag)]. split; [|done].
        exists tags. split; [|done]. apply list_elem_of_fmap.
        exists i. simpl. by rewrite Htags. }
    eexists. split_and!; [done|done| |].
    + rewrite Hmem, Hnames. intros [[] _]. done.
    + intros tag. rewrite Hmem, Hnames. split; [tauto|].
      intros ?. split; [done|]. by intros ?%elem_of_nil.
  - exists []. split_and!; [done|constructor|by intros ?%elem_of_nil|done].
Qed.

(** ** Starting a node *)

Lemma ensureDir_trace dir (w : World) :
  trace (ensureDir rt dir w).2 = trace w ++ [EnsureDir dir].
Proof. unfold ensureDir. by destruct (fs_ensureDir _ _ _). Qed.

Lemma bindA_dirs {A B} (m : Async World A) (k : A → Async World B) :
  (∀ w, ∃ ds, trace (m w).2 = trace w ++ (EnsureDir <$> ds)) →
  (∀ a w, ∃ ds, trace (k a w).2 = trace w ++ (EnsureDir <$> ds)) →
  ∀ w, ∃ ds, trace (bindA m k w).2 = trace w ++ (EnsureDir <$> ds).
Proof.
  intros Hm Hk w. unfold bindA. destruct (Hm w) as [ds1 H1].
  destruct (m w) as [[a|e] w1]; simpl in H1.
  - destruct (Hk a w1) as [ds2 H2]. exists (ds1 ++ ds2).
    by rewrite H2, H1, fmap_app, app_assoc.
  - by exists ds1.
Qed.

Lemma ensureDir_dirs dir (w : World) :
  ∃ ds, trace (ensureDir rt dir w).2 = trace w ++ (EnsureDir <$> ds).
Proof. exists [dir]. apply ensureDir_trace. Qed.

Lemma ensureDirs_trace network ns (w : World) :
  ∃ ds, trace (ensureDirs lib rt network ns w).2 = trace w ++ (EnsureDir <$> ds).
Proof.
  revert w. induction ns as [|n ns IH]; intros w; simpl.
  - exists []. by rewrite app_nil_r.
  - apply bindA_dirs; [apply ensureDir_dirs|]. intros _.
    apply bindA_dirs; [|by intros _].
    case_decide.
    + apply bindA_dirs; [apply ensureDir_dirs|]. intros _. apply ensureDir_dirs.
    + intros w'. exists []. by rewrite app_nil_r.
Qed.






(** ** Saving and loading the networks *)

(** C9: a document at the current version that the JSON serialisation
    preserves is what [loadNetworks] returns after [saveNetworks] saved it,
    in production and in development mode alike, and it is still what the
    file on disk holds. *)
Theorem save_load_roundtrip (x : NetworksFile.t IChart) (w : World) :
  NetworksFile.version x = APP_VERSION lib →
  JSON_parse lib (JSON_stringify lib x) = Return x →
  (saveNetworks lib x w).1 = Return ()
  ∧ (loadNetworks lib rt (saveNetworks lib x w).2).1 = Return x
  ∧ files (loadNetworks lib rt (saveNetworks lib x w).2).2
      !! join lib (networksPath lib) "networks.json"
    = Some (JSON_stringify lib x).
Proof.
  intros Hversion Hparse.
  unfold loadNetworks, saveNetworks, migrateNetworksFile, bindA, exists_, write,
    read, ret, ofResult.
  set (path := join lib (networksPath lib) "networks.json").
  assert (∀ (fs : gmap string string) (ds : gset string) json,
            bool_decide (is_Some (<[path := json]> fs !! path) ∨ path ∈ ds) = true)
    as Hexists.
  { intros. apply bool_decide_eq_true_2. left. rewrite lookup_insert_eq. eauto. }
  simpl. rewrite Hexists. simpl. rewrite Hexists. simpl.
  rewrite lookup_insert_eq, Hparse.
  rewrite (bool_decide_eq_false_2 (NetworksFile.version x ≠ _)) by tauto.
  simpl. rewrite decide_True by done.
  case_bool_decide; simpl; by rewrite lookup_insert_eq.
Qed.

(** ** The compose file *)

Lemma setServices_lookup file entries nm svc :
  ComposeFile.services (ComposeFile.content (setServices file entries)) !! nm = Some svc →
  ComposeFile.services (ComposeFile.content file) !! nm = Some svc
  ∨ (nm, svc) ∈ entries.
Proof.
  revert file. induction entries as [|[k v] entries IH]; intros file; simpl; [by left|].
  intros [Hl|Hin]%IH; [|right; by right].
  simpl in Hl. destruct (decide (k = nm)) as [->|Hne].
  - rewrite lookup_insert_eq in Hl. injection Hl as ->. right. by left.
  - rewrite lookup_insert_ne in Hl by done. by left.
Qed.

Lemma setServices_is_Some file entries nm :
  is_Some (ComposeFile.services (ComposeFile.content (setServices file entries)) !! nm)
  ↔ is_Some (ComposeFile.services (ComposeFile.content file) !! nm)
    ∨ nm ∈ entries.*1.
Proof.
  revert file. induction entries as [|[k v] entries IH]; intros file; simpl.
  - rewrite elem_of_nil. tauto.
  - rewrite IH, elem_of_cons. simpl. rewrite lookup_insert_is_Some.
    destruct (decide (k = nm)); intuition congruence.
Qed.

Lemma setServices_size file entries :
  NoDup entries.*1 →
  (∀ nm, nm ∈ entries.*1 →
         ComposeFile.services (ComposeFile.content file) !! nm = None) →
  size (ComposeFile.services (ComposeFile.content (setServices file entries)))
  = (size (ComposeFile.services (ComposeFile.content file)) + length entries)%nat.
Proof.
  revert file. induction entries as [|[k v] entries IH]; intros file; simpl.
  - intros _ _. lia.
  - intros [Hk Hnodup]%NoDup_cons Hfresh. rewrite IH; [|done|].
    + simpl. rewrite map_size_insert_None; [lia|]. apply Hfresh. by left.
    + intros nm Hnm. simpl. rewrite lookup_insert_ne by (intros ->; done).
      apply Hfresh. by right.
Qed.

(** The last entry under a name is the one the file keeps. *)
Lemma setServices_lookup_unique file entries nm svc :
  (nm, svc) ∈ entries →
  (∀ svc', (nm, svc') ∈ entries → svc' = svc) →
  ComposeFile.services (ComposeFile.content (setServices file entries)) !! nm = Some svc.
Proof.
  intros Hin Huniq.
  assert (is_Some (ComposeFile.services
            (ComposeFile.content (setServices file entries)) !! nm)) as [svc' Hsvc'].
  { apply setServices_is_Some. right. apply list_elem_of_fmap. by exists (nm, svc). }
  revert file Hsvc'. induction entries as [|[k v] entries IH]; intros file Hsvc'.
  - by apply elem_of_nil in Hin.
  - simpl in Hsvc'. destruct (decide (nm ∈ entries.*1)) as [Hlater|Hnot].
    + apply list_elem_of_fmap in Hlater as ([k' v'] & -> & Hlater).
      simpl in *. assert (v' = svc) as Hv. { apply Huniq. by right. }
      subst v'. eapply IH; [done| |done]. intros ? ?. apply Huniq. by right.
    + destruct (setServices_lookup _ _ _ _ Hsvc') as [Hl|Hl].
      * simpl in Hl. apply elem_of_cons in Hin as [[= <- <-]|Hin].
        -- rewrite lookup_insert_eq in Hl. injection Hl as ->. done.
        -- destruct Hnot. apply list_elem_of_fmap. by exists (nm, svc).
      * destruct Hnot. apply list_elem_of_fmap. by exists (nm, svc').
Qed.

Lemma forEach_addBitcoind bitcoin file :
  forEach (λ node file, Return (ComposeFile.addBitcoind node file)) bitcoin file
  = Return (setServices file (bitcoinEntries bitcoin)).
Proof.
  revert file. induction bitcoin as [|b bitcoin IH]; intros file; simpl; [done|].
  by rewrite IH.
Qed.

(** Whatever its implementation, a lightning node is added once, with the
    backend found for it. *)
Lemma addLightningNode_run bitcoin (node : LightningNode) file :
  addLightningNode bitcoin node file
  = ComposeFile.addLightning node (findBackend bitcoin (backendName node)) file.
Proof.
  unfold addLightningNode, ComposeFile.addLnd, ComposeFile.addClightning,
    ComposeFile.addEclair, ComposeFile.addLightning.
  destruct (findBackend bitcoin (backendName node)) as [b|];
    destruct (implementation node); simpl; done.
Qed.

Lemma findBackend_is_Some bitcoin backendName :
  bitcoin ≠ [] → is_Some (findBackend bitcoin backendName).
Proof.
  intros Hne. unfold findBackend. destruct (List.find _ _); simpl; [eauto|].
  destruct bitcoin; [done|]. simpl. eauto.
Qed.

Lemma findBackend_elem_of bitcoin backendName b :
  findBackend bitcoin backendName = Some b → b ∈ bitcoin.
Proof.
  unfold findBackend. destruct (List.find _ _) eqn:Hfind; simpl.
  - intros [= ->]. apply find_some in Hfind as [Hin _]. by apply list_elem_of_In.
  - intros Hhead. by eapply list_elem_of_lookup_2.
Qed.

Lemma forEach_addLightningNode bitcoin lightning file :
  bitcoin ≠ [] →
  forEach (addLightningNode bitcoin) lightning file
  = Return (setServices file (lightningEntries bitcoin lightning))
  ∧ (lightningEntries bitcoin lightning).*1
    = (λ n : LightningNode, name n) <$> lightning.
Proof.
  intros Hne. revert file.
  induction lightning as [|ln lightning IH]; intros file; simpl; [done|].
  rewrite addLightningNode_run. unfold lightningEntries; simpl.
  destruct (findBackend_is_Some bitcoin (backendName ln) Hne) as [b ->]. simpl.
  destruct (IH (ComposeFile.setService file (name ln) (ComposeFile.lightningService ln b)))
    as [-> Hnames].
  split; [done|]. f_equal. apply Hnames.
Qed.

Lemma lightningEntries_elem_of bitcoin lightning nm svc :
  (nm, svc) ∈ lightningEntries bitcoin lightning ↔
  ∃ (ln : LightningNode) b,
    ln ∈ lightning ∧ name ln = nm
    ∧ findBackend bitcoin (backendName ln) = Some b
    ∧ svc = ComposeFile.lightningService ln b.
Proof.
  unfold lightningEntries. rewrite list_elem_of_omap. split.
  - intros (ln & Hln & Heq). destruct (findBackend _ _) as [b|] eqn:Hb; [|done].
    injection Heq as <- <-. by exists ln, b.
  - intros (ln & b & Hln & <- & Hb & ->). exists ln. by rewrite Hb.
Qed.

Lemma backendsResolve_bitcoin (network : Network.t) :
  backendsResolve network →
  lightning (Network.nodes network) ≠ [] → bitcoin (Network.nodes network) ≠ [].
Proof.
  unfold backendsResolve. intros Hres Hl Hb. rewrite Hb in Hres.
  destruct (lightning (Network.nodes network)) as [|ln lightning]; [done|].
  apply Forall_cons in Hres as [[b Hfind] _]. done.
Qed.

(** The compose file of a network whose lightning nodes have a bitcoin node
    to fall back on. *)
Lemma composeFileOf_entries (network : Network.t) :
  (lightning (Network.nodes network) ≠ [] → bitcoin (Network.nodes network) ≠ []) →
  composeFileOf network
  = Return (setServices ComposeFile.new
              (bitcoinEntries (bitcoin (Network.nodes network))
               ++ lightningEntries (bitcoin (Network.nodes network))
                    (lightning (Network.nodes network))))
  ∧ (bitcoinEntries (bitcoin (Network.nodes network))
     ++ lightningEntries (bitcoin (Network.nodes network))
          (lightning (Network.nodes network))).*1
    = nodeNames network.
Proof.
  intros Hwf. unfold composeFileOf, nodeNames.
  rewrite forEach_addBitcoind. simpl.
  assert ((bitcoinEntries (bitcoin (Network.nodes network))).*1
          = name <$> bitcoin (Network.nodes network)) as Hb.
  { unfold bitcoinEntries. rewrite <-list_fmap_compose. done. }
  unfold setServices. rewrite foldl_app, fmap_app, Hb.
  destruct (lightning (Network.nodes network)) as [|ln lightning] eqn:Hl.
  - done.
  - destruct (forEach_addLightningNode (bitcoin (Network.nodes network))
                (ln :: lightning)
                (setServices ComposeFile.new
                   (bitcoinEntries (bitcoin (Network.nodes network)))))
      as [Hrun Hnames]; [by apply Hwf|].
    unfold setServices in Hrun. rewrite Hrun, Hnames. done.
Qed.

(** A compose file is only obtained when the lightning nodes have a bitcoin
    node to fall back on. *)
Lemma composeFileOf_Return (network : Network.t) file :
  composeFileOf network = Return file →
  lightning (Network.nodes network) ≠ [] → bitcoin (Network.nodes network) ≠ [].
Proof.
  unfold composeFileOf. intros Hfile Hl Hb. rewrite Hb in Hfile. simpl in Hfile.
  destruct (lightning (Network.nodes network)) as [|ln lightning]; [done|].
  simpl in Hfile. by rewrite addLightningNode_run in Hfile.
Qed.

(** C1: for every network, the document [saveComposeFile] generates is
    complete. A document is generated when the lightning nodes have a backend
    to resolve to (the invariant of a network in the data model); and
    whenever one is generated, it is the dump of a compose file in which a
    name has a service exactly when it is the name of a node of the network,
    every service is the service of a bitcoin or lightning node of that name,
    and, the node names being unique, there are as many services as nodes. *)
Theorem saveComposeFile_complete (network : Network.t) (w : World) :
  (backendsResolve network →
   ∃ file, composeFileOf network = Return file
           ∧ (saveComposeFile lib network w).1 = Return ())
  ∧ ∀ file,
      composeFileOf network = Return file →
      (saveComposeFile lib network w).1 = Return ()
      ∧ files (saveComposeFile lib network w).2
          !! join lib (Network.path network) "docker-compose.yml"
        = Some (yaml_dump lib (ComposeFile.content file))
      ∧ (∀ nm, is_Some (ComposeFile.services (ComposeFile.content file) !! nm)
               ↔ nm ∈ nodeNames network)
      ∧ (∀ nm svc,
           ComposeFile.services (ComposeFile.content file) !! nm = Some svc →
           (∃ b : BitcoinNode,
              b ∈ bitcoin (Network.nodes network) ∧ name b = nm
              ∧ svc = ComposeFile.bitcoinService b)
           ∨ (∃ (ln : LightningNode) (b : BitcoinNode),
                ln ∈ lightning (Network.nodes network) ∧ name ln = nm
                ∧ findBackend (bitcoin (Network.nodes network)) (backendName ln)
                  = Some b
                ∧ svc = ComposeFile.lightningService ln b))
      ∧ (NoDup (nodeNames network) →
         size (ComposeFile.services (ComposeFile.content file))
         = (length (bitcoin (Network.nodes network))
            + length (lightning (Network.nodes network)))%nat).
Proof.
  split.
  { intros Hwf.
    destruct (composeFileOf_entries network (backendsResolve_bitcoin network Hwf))
      as [Hfile _].
    eexists. split; [exact Hfile|].
    unfold saveComposeFile, bindA, ofResult, write. by rewrite Hfile. }
  intros file Hfile.
  destruct (composeFileOf_entries network (composeFileOf_Return network file Hfile))
    as [Hentries Hnames].
  rewrite Hfile in Hentries. injection Hentries as ->.
  unfold saveComposeFile, bindA, ofResult, write. rewrite Hfile. simpl.
  split_and!; [done|by rewrite lookup_insert_eq|..].
  - intros nm. rewrite setServices_is_Some, Hnames. simpl.
    rewrite lookup_empty. split; [by intros [[? ?]|?]|by right].
  - intros nm svc [Hl|Hin]%setServices_lookup.
    { simpl in Hl. by rewrite lookup_empty in Hl. }
    apply elem_of_app in Hin as [Hin|Hin].
    + left. unfold bitcoinEntries in Hin.
      apply list_elem_of_fmap in Hin as (b & [= -> ->] & Hb). by exists b.
    + right. by apply lightningEntries_elem_of.
  - intros Hnodup. rewrite setServices_size.
    + simpl. rewrite map_size_empty.
      rewrite <-(length_fmap fst), Hnames. unfold nodeNames.
      by rewrite length_app, !length_fmap.
    + by rewrite Hnames.
    + intros nm _. simpl. apply lookup_empty.
Qed.

(** C2: a lightning node whose backend name is the name of no bitcoin node of
    the network gets the first bitcoin node as its backend, and
    [saveComposeFile] does not fail: it resolves, and the document it writes
    at the network's [docker-compose.yml] is the dump of the compose file in
    which, when no other lightning node has its name, the service of the node
    is the one that references the first bitcoin node. *)
Theorem saveComposeFile_backend_fallback (network : Network.t) (ln : LightningNode)
    (first : BitcoinNode) (w : World) :
  bitcoin (Network.nodes network) !! 0%nat = Some first →
  ln ∈ lightning (Network.nodes network) →
  (∀ b : BitcoinNode, b ∈ bitcoin (Network.nodes network) → name b ≠ backendName ln) →
  findBackend (bitcoin (Network.nodes network)) (backendName ln) = Some first
  ∧ ∃ file,
      composeFileOf network = Return file
      ∧ (saveComposeFile lib network w).1 = Return ()
      ∧ files (saveComposeFile lib network w).2
          !! join lib (Network.path network) "docker-compose.yml"
        = Some (yaml_dump lib (ComposeFile.content file))
      ∧ ((∀ ln' : LightningNode,
            ln' ∈ lightning (Network.nodes network) → name ln' = name ln → ln' = ln) →
         ComposeFile.services (ComposeFile.content file) !! name ln
         = Some (ComposeFile.lightningService ln first)
         ∧ ComposeFile.backendService (ComposeFile.lightningService ln first)
           = Some (name first)).
Proof.
  intros Hfirst Hln Hnomatch.
  assert (findBackend (bitcoin (Network.nodes network)) (backendName ln) = Some first)
    as Hbackend.
  { unfold findBackend. destruct (List.find _ _) as [b|] eqn:Hfind; [|done].
    apply find_some in Hfind as [Hin Hname]. apply bool_decide_eq_true in Hname.
    destruct (Hnomatch b); [by apply list_elem_of_In|done]. }
  split; [done|].
  assert (bitcoin (Network.nodes network) ≠ []) as Hne.
  { intros Hnil. by rewrite Hnil in Hfirst. }
  destruct (composeFileOf_entries network (λ _, Hne)) as [Hfile _].
  eexists. split; [exact Hfile|].
  unfold saveComposeFile, bindA, ofResult, write. rewrite Hfile. simpl.
  split_and!; [done|by rewrite lookup_insert_eq|]. intros Huniq. split; [|done].
  unfold setServices. rewrite foldl_app.
  apply setServices_lookup_unique.
  - apply lightningEntries_elem_of. by exists ln, first.
  - intros svc' (ln' & b' & Hln' & Hname & Hb' & ->)%lightningEntries_elem_of.
    apply Huniq in Hname as ->; [|done]. congruence.
Qed.

End DockerServiceProperties.

(** * The properties on the example network *)

Lemma mine_negative_rejects_witness :
  (-1 < 0)%Z
  ∧ (BitcoindModel.mine (λ key, key) Demo.networkById Demo.bitcoindService
       (-1) Demo.backend1 Demo.store).1
    = Throw (Error "mineError").
Proof.
  split; [lia|].
  apply (mine_negative_rejects (λ key, key) Demo.networkById
           Demo.bitcoindService (-1) Demo.backend1 Demo.store).
  lia.
Defined.


(** C7, with both texts stripped on every invocation, fails on a command that
    fails with coloured output and no error text: the message thrown carries
    the output with its colour codes, where stripping both texts would have
    removed them. *)
Lemma execute_strips_both_counterexample :
  DockerService.compose_run Demo.rtColour (DockerService.trace Demo.world)
    DockerService.upAll Demo.opts = DockerService.Rejected Demo.colouredFailure
  ∧ DockerService.stripAnsi Demo.libColour (DockerService.out Demo.colouredFailure)
    = "cannot start"
  ∧ (DockerService.execute Demo.libColour Demo.rtColour DockerService.upAll
       Demo.opts Demo.world).1
    = Throw (Error ("{exitCode:1,out:'"
                    +:+ String Demo.ESC "[31mcannot start" +:+ String Demo.ESC "[0m"
                    +:+ "',err:''}"))
  ∧ (DockerService.execute_strippingBoth Demo.libColour Demo.rtColour
       DockerService.upAll Demo.opts Demo.world).1
    = Throw (Error "{exitCode:1,out:'cannot start',err:''}")
  ∧ (DockerService.execute Demo.libColour Demo.rtColour DockerService.upAll
       Demo.opts Demo.world).1
    ≠ (DockerService.execute_strippingBoth Demo.libColour Demo.rtColour
         DockerService.upAll Demo.opts Demo.world).1.
Proof.
  split_and!; [reflexivity|reflexivity|reflexivity|reflexivity|].
  vm_compute. discriminate.
Qed.

Lemma saveComposeFile_complete_witness :
  DockerService.backendsResolve Demo.network1
  ∧ ∃ file, DockerService.composeFileOf Demo.network1 = Return file
            ∧ size (ComposeFile.services (ComposeFile.content file)) = 5%nat.
Proof.
  assert (DockerService.backendsResolve Demo.network1) as Hwf.
  { repeat constructor; vm_compute; eauto. }
  split; [exact Hwf|].
  destruct (saveComposeFile_complete Demo.lib Demo.network1 Demo.world)
    as [Hgenerated Hcomplete].
  destruct (Hgenerated Hwf) as (file & Hfile & _).
  exists file. split; [exact Hfile|].
  destruct (Hcomplete file Hfile) as (_ & _ & _ & _ & Hsize).
  apply Hsize. vm_compute.
  repeat (constructor; [rewrite ?elem_of_cons, elem_of_nil; intuition discriminate|]).
  constructor.
Defined.

Lemma saveComposeFile_backend_fallback_witness :
  bitcoin (Network.nodes Demo.network1) !! 0%nat = Some Demo.backend1
  ∧ Demo.bob ∈ lightning (Network.nodes Demo.network1)
  ∧ (∀ b : BitcoinNode, b ∈ bitcoin (Network.nodes Demo.network1) →
       name b ≠ backendName Demo.bob)
  ∧ DockerService.findBackend (bitcoin (Network.nodes Demo.network1))
      (backendName Demo.bob) = Some Demo.backend1
  ∧ ∃ file,
      DockerService.files (DockerService.saveComposeFile Demo.lib Demo.network1 Demo.world).2
        !! "/networks/1/docker-compose.yml"
      = Some (DockerService.yaml_dump Demo.lib (ComposeFile.content file))
      ∧ ComposeFile.backendService
          <$> ComposeFile.services (ComposeFile.content file) !! "bob"
        = Some (Some "backend1").
Proof.
  assert (Demo.bob ∈ lightning (Network.nodes Demo.network1)) as Hbob.
  { right. left. }
  assert (∀ b : BitcoinNode, b ∈ bitcoin (Network.nodes Demo.network1) →
            name b ≠ backendName Demo.bob) as Hnomatch.
  { intros b. simpl. rewrite !elem_of_cons, elem_of_nil.
    intros [->|[->|[->|[]]]]; discriminate. }
  destruct (saveComposeFile_backend_fallback Demo.lib Demo.network1 Demo.bob
              Demo.backend1 Demo.world eq_refl Hbob Hnomatch)
    as (Hbackend & file & _ & _ & Hwritten & Hservice).
  split_and!; [reflexivity|exact Hbob|exact Hnomatch|exact Hbackend|].
  exists file. split; [exact Hwritten|].
  destruct Hservice as [Hservice _].
  - intros ln'. simpl. rewrite !elem_of_cons, elem_of_nil.
    intros [->|[->|[]]]; [discriminate|reflexivity].
  - change (name Demo.bob) with "bob" in Hservice. rewrite Hservice. reflexivity.
Defined.

Lemma save_load_roundtrip_witness :
  NetworksFile.version Demo.networksFile = DockerService.APP_VERSION Demo.lib
  ∧ DockerService.JSON_parse Demo.lib
      (DockerService.JSON_stringify Demo.lib Demo.networksFile)
    = Return Demo.networksFile
  ∧ (DockerService.loadNetworks Demo.lib Demo.rt
       (DockerService.saveNetworks Demo.lib Demo.networksFile Demo.world).2).1
    = Return Demo.networksFile.
Proof.
  split_and!; [reflexivity|reflexivity|].
  apply (save_load_roundtrip Demo.lib Demo.rt Demo.networksFile Demo.world
           eq_refl eq_refl).
Defined.

(** ** The code on the example network *)

Example getNetworkBackendId_backend1 :
  BitcoindModel.getNetworkBackendId Demo.backend1 = "1-backend1".
Proof. vm_compute. reflexivity. Qed.

Example indexOf_examples :
  DockerService.indexOf ["a"; "b"; "a"] "a" = 0%Z
  ∧ DockerService.indexOf ["a"; "b"; "a"] "b" = 1%Z
  ∧ DockerService.indexOf ["a"; "b"; "a"] "c" = (-1)%Z.
Proof. vm_compute. done. Qed.

Example getImages_example :
  (DockerService.getImages Demo.rtImages Demo.world).1
  = Return ["polarlightning/lnd:0.12.0-beta"; "polarlightning/bitcoind:0.21.0";
            "polarlightning/eclair:0.5.0"].
Proof. vm_compute. reflexivity. Qed.

Example findBackend_examples :
  DockerService.findBackend [Demo.backend1; Demo.backend2] "backend2"
  = Some Demo.backend2
  ∧ DockerService.findBackend [Demo.backend1; Demo.backend2] "backend9"
    = Some Demo.backend1
  ∧ DockerService.findBackend [] "backend1" = None.
Proof. vm_compute. done. Qed.

Example composeFileOf_network1 :
  ∃ file,
    DockerService.composeFileOf Demo.network1 = Return file
    ∧ ComposeFile.services (ComposeFile.content file) !! "alice"
      = Some (ComposeFile.lightningService Demo.alice Demo.backend2)
    ∧ ComposeFile.services (ComposeFile.content file) !! "bob"
      = Some (ComposeFile.lightningService Demo.bob Demo.backend1)
    ∧ ComposeFile.services (ComposeFile.content file) !! "backend3"
      = Some (ComposeFile.bitcoinService Demo.backend3)
    ∧ size (ComposeFile.services (ComposeFile.content file)) = 5%nat.
Proof. eexists. split; [reflexivity|]. vm_compute. done. Qed.

(** A lightning node with no bitcoin node in its network has no backend to
    fall back on: no compose file is written. *)
Example saveComposeFile_orphaned :
  DockerService.findBackend (bitcoin (Network.nodes Demo.orphaned))
    (backendName Demo.alice) = None
  ∧ DockerService.saveComposeFile Demo.lib Demo.orphaned Demo.world
    = (Throw (TypeError "Cannot read properties of undefined"), Demo.world).
Proof. split; reflexivity. Qed.

Example startNode_example :
  DockerService.issued
    (DockerService.startNode Demo.lib Demo.rt Demo.network1
       (commonOfLightning Demo.bob)) Demo.world
  = let opts := {| DockerService.cwd := "/networks/1";
                   DockerService.env := {[ "USERID" := "1000"; "GROUPID" := "1000" ]};
                   DockerService.executablePath := None |} in
    [ DockerService.EnsureDir "/networks/1/volumes/bob";
      DockerService.EnsureDir "/networks/1/volumes/bob/lightningd";
      DockerService.EnsureDir "/networks/1/volumes/bob/rest-api";
      DockerService.Compose (DockerService.stopOne "bob") opts;
      DockerService.Compose (DockerService.upOne "bob") opts ].
Proof. vm_compute. reflexivity. Qed.

(** When the stop fails, the node is not started, and the error is the
    standard-error text of the command. *)
Example startNode_stop_fails :
  (DockerService.startNode Demo.lib Demo.rtImages Demo.network1
     (commonOfLightning Demo.bob) Demo.world).1
  = Throw (Error "No such service")
  ∧ List.length
      (DockerService.issued
         (DockerService.startNode Demo.lib Demo.rtImages Demo.network1
            (commonOfLightning Demo.bob)) Demo.world) = 4%nat.
Proof. vm_compute. done. Qed.

Example mine_example :
  BitcoindModel.refreshed
    (BitcoindModel.issued
       (BitcoindModel.mine (λ key, key) Demo.networkById Demo.bitcoindService
          6 Demo.backend1) Demo.store)
  = [Demo.backend1; Demo.backend2]
  ∧ BitcoindModel.nodes
      (BitcoindModel.state
         (BitcoindModel.mine (λ key, key) Demo.networkById Demo.bitcoindService
            6 Demo.backend1 Demo.store).2) !! "1-backend2"
    = Some {| BitcoindModel.chainInfo := Some 106%Z;
              BitcoindModel.walletInfo := Some 50%Z |}
  ∧ BitcoindModel.nodes
      (BitcoindModel.state
         (BitcoindModel.mine (λ key, key) Demo.networkById Demo.bitcoindService
            6 Demo.backend1 Demo.store).2) !! "1-backend3"
    = None.
Proof. vm_compute. done. Qed.

(** * Further properties of the bitcoind store model *)

Section BitcoindModelCache.

Import BitcoindModel.

Context {ChainInfo WalletInfo Amount : Type}.
Context (l : string → string) (networkById : Z → Result Network.t).
Context (bitcoindService : @BitcoindLibrary ChainInfo WalletInfo Amount).

Local Abbreviation Store := (@Store ChainInfo WalletInfo Amount).
Local Abbreviation State := (@State ChainInfo WalletInfo).
Local Abbreviation mine := (mine l networkById bitcoindService).
Local Abbreviation getInfo := (getInfo bitcoindService).
Local Abbreviation sendFunds := (sendFunds l networkById bitcoindService).

Lemma State_eq (st1 st2 : State) : nodes st1 = nodes st2 → st1 = st2.
Proof. destruct st1, st2; simpl. by intros ->. Qed.

(** X1: removing a node forgets the info set for it: the state is the one
    that removing the node without the info gives, and the state before the
    info was set when the node had no entry. *)
Theorem removeNode_setInfo (node : BitcoinNode) ci wi (st : State) :
  removeNode node (setInfo node ci wi st) = removeNode node st
  ∧ (nodes st !! getNetworkBackendId node = None →
     removeNode node (setInfo node ci wi st) = st).
Proof.
  assert (removeNode node (setInfo node ci wi st) = removeNode node st) as Heq.
  { apply State_eq, map_eq. intros key. unfold removeNode; cbn [nodes].
    destruct (decide (key = getNetworkBackendId node)) as [->|Hne].
    - by rewrite !lookup_delete_eq.
    - rewrite !lookup_delete_ne by done. by apply setInfo_lookup_ne. }
  split; [done|]. intros Hnone. rewrite Heq.
  apply State_eq. unfold removeNode; cbn [nodes]. by apply delete_id.
Qed.

(** X2: the info set last for a node is the one the cache keeps: setting the
    info twice is setting the second info, and reading the entry gives both
    the chain and the wallet info of the last fetch. *)
Theorem setInfo_overwrites (node : BitcoinNode) ci1 wi1 ci2 wi2 (st : State) :
  setInfo node ci2 wi2 (setInfo node ci1 wi1 st) = setInfo node ci2 wi2 st
  ∧ nodes (setInfo node ci2 wi2 (setInfo node ci1 wi1 st))
      !! getNetworkBackendId node
    = Some {| chainInfo := Some ci2; walletInfo := Some wi2 |}.
Proof.
  split; [|apply setInfo_lookup].
  apply State_eq, map_eq. intros key.
  destruct (decide (key = getNetworkBackendId node)) as [->|Hne].
  - by rewrite !setInfo_lookup.
  - by rewrite !setInfo_lookup_ne.
Qed.

(** X3: two nodes that differ in network id or in name have entries of their
    own: setting the info of one leaves the entry of the other, and the infos
    of the two can be set in either order. *)
Theorem setInfo_independent (n m : BitcoinNode) ci wi ci' wi' (st : State) :
  networkId n ≠ networkId m ∨ name n ≠ name m →
  nodes (setInfo m ci' wi' st) !! getNetworkBackendId n
  = nodes st !! getNetworkBackendId n
  ∧ setInfo n ci wi (setInfo m ci' wi' st) = setInfo m ci' wi' (setInfo n ci wi st).
Proof.
  intros Hdiff.
  assert (getNetworkBackendId n ≠ getNetworkBackendId m) as Hkey.
  { intros [??]%getNetworkBackendId_inj. destruct Hdiff; congruence. }
  split; [by apply setInfo_lookup_ne|].
  apply State_eq, map_eq. intros key.
  destruct (decide (key = getNetworkBackendId n)) as [->|Hn].
  - rewrite setInfo_lookup, setInfo_lookup_ne by done. by rewrite setInfo_lookup.
  - rewrite (setInfo_lookup_ne n) by done.
    destruct (decide (key = getNetworkBackendId m)) as [->|Hm].
    + by rewrite !setInfo_lookup.
    + by rewrite !setInfo_lookup_ne.
Qed.

(** ** Fetching the info of a node *)

Lemma getInfo_run (node : BitcoinNode) (s : Store) :
  getInfo node s
  = match service_getBlockchainInfo bitcoindService (trace s) node with
    | Throw e => (Throw e, record (CallGetBlockchainInfo node) s)
    | Return ci =>
        match service_getWalletInfo bitcoindService
                (trace s ++ [CallGetBlockchainInfo node]) node with
        | Throw e => (Throw e, record (CallGetWalletInfo node)
                                 (record (CallGetBlockchainInfo node) s))
        | Return wi =>
            (Return (),
             {| state := setInfo node ci wi (state s);
                trace := trace s ++ [CallGetBlockchainInfo node;
                                     CallGetWalletInfo node; SetInfo node ci wi] |})
        end
    end.
Proof.
  unfold BitcoindModel.getInfo, bindA, call, dispatch; simpl.
  destruct (service_getBlockchainInfo _ _ _) as [ci|e]; [|done]. simpl.
  destruct (service_getWalletInfo _ _ _) as [wi|e]; [|done]. simpl.
  by rewrite <-!app_assoc.
Qed.

(** X4: when a fetch fails the cache is left as it was: [getInfo] rejects with
    the error of the call that failed, the wallet info is not asked for when
    the chain info could not be had, and no info is set. *)
Theorem getInfo_failure_keeps_cache (node : BitcoinNode) (s : Store) e :
  (getInfo node s).1 = Throw e →
  state (getInfo node s).2 = state s
  ∧ ((service_getBlockchainInfo bitcoindService (trace s) node = Throw e
      ∧ issued (getInfo node) s = [CallGetBlockchainInfo node])
     ∨ (service_getWalletInfo bitcoindService
          (trace s ++ [CallGetBlockchainInfo node]) node = Throw e
        ∧ issued (getInfo node) s
          = [CallGetBlockchainInfo node; CallGetWalletInfo node])).
Proof.
  unfold issued. rewrite getInfo_run.
  destruct (service_getBlockchainInfo _ _ _) as [ci|e1]; simpl.
  - destruct (service_getWalletInfo _ _ _) as [wi|e2]; simpl; [done|].
    intros [= ->]. split; [done|]. right. split; [done|].
    by rewrite <-app_assoc, drop_app_length.
  - intros [= ->]. split; [done|]. left. split; [done|].
    by rewrite drop_app_length.
Qed.

(** X5: when [getInfo] resolves, the entry of the node holds the chain info
    and the wallet info the service answered, in that order of asking, and no
    other entry of the cache has changed. *)
Theorem getInfo_caches_answers (node : BitcoinNode) (s : Store) :
  (getInfo node s).1 = Return () →
  ∃ ci wi,
    service_getBlockchainInfo bitcoindService (trace s) node = Return ci
    ∧ service_getWalletInfo bitcoindService
        (trace s ++ [CallGetBlockchainInfo node]) node = Return wi
    ∧ issued (getInfo node) s
      = [CallGetBlockchainInfo node; CallGetWalletInfo node; SetInfo node ci wi]
    ∧ nodes (state (getInfo node s).2) !! getNetworkBackendId node
      = Some {| chainInfo := Some ci; walletInfo := Some wi |}
    ∧ (∀ key, key ≠ getNetworkBackendId node →
         nodes (state (getInfo node s).2) !! key = nodes (state s) !! key).
Proof.
  unfold issued. rewrite getInfo_run.
  destruct (service_getBlockchainInfo _ _ _) as [ci|e1]; [|done].
  destruct (service_getWalletInfo _ _ _) as [wi|e2]; [|done].
  intros _. exists ci, wi. simpl. split_and!; [done|done| | |].
  - by rewrite drop_app_length.
  - apply setInfo_lookup.
  - intros key Hne. by apply setInfo_lookup_ne.
Qed.

(** ** Mining *)

Local Abbreviation isFetch :=
  (λ ev : @Event ChainInfo WalletInfo Amount,
     match ev with
     | CallGetBlockchainInfo _ | CallGetWalletInfo _ | SetInfo _ _ _ => True
     | _ => False
     end).

Lemma Promise_all_getInfo_fetches (ns : list BitcoinNode) (s : Store) :
  ∃ evs, trace (Promise_all (getInfo <$> ns) s).2 = trace s ++ evs
         ∧ Forall isFetch evs.
Proof.
  revert s. induction ns as [|n ns IH]; intros s; csimpl.
  - exists []. by rewrite app_nil_r.
  - assert (∃ evs, trace (getInfo n s).2 = trace s ++ evs ∧ Forall isFetch evs)
      as (evs1 & H1 & Hf1).
    { rewrite getInfo_run.
      destruct (service_getBlockchainInfo _ _ _) as [ci|e1]; simpl.
      - destruct (service_getWalletInfo _ _ _) as [wi|e2]; simpl.
        + eexists. split; [done|]. by repeat constructor.
        + exists [CallGetBlockchainInfo n; CallGetWalletInfo n].
          rewrite <-app_assoc. split; [done|]. by repeat constructor.
      - eexists. split; [done|]. by repeat constructor. }
    destruct (getInfo n s) as [[[]|e] s1]; simpl in H1;
      destruct (IH s1) as (evs2 & H2 & Hf2).
    + destruct (Promise_all (getInfo <$> ns) s1) as [[vs|e] s2]; simpl in *;
        exists (evs1 ++ evs2); (split; [by rewrite H2, H1, app_assoc|]);
        by apply Forall_app.
    + simpl. exists (evs1 ++ evs2). split; [by rewrite H2, H1, app_assoc|].
      by apply Forall_app.
Qed.

(** What [mine] issues once the block count has passed the guard. *)
Lemma mine_events (blocks : Z) (node : BitcoinNode) (s : Store) :
  ¬ (blocks < 0)%Z →
  match service_mine bitcoindService (trace s) blocks node with
  | Throw e => mine blocks node s = (Throw e, record (CallMine blocks node) s)
  | Return _ =>
      ∃ evs, trace (mine blocks node s).2
             = trace s ++ CallMine blocks node :: Delay 500 :: evs
             ∧ Forall isFetch evs
             ∧ (∀ e, networkById (networkId node) = Throw e →
                  (mine blocks node s).1 = Throw e ∧ evs = []
                  ∧ state (mine blocks node s).2 = state s)
  end.
Proof.
  intros Hge. unfold BitcoindModel.mine.
  rewrite decide_False by done.
  unfold bindA, call, delay, ofResult, ret; simpl.
  destruct (service_mine _ _ _ _) as [hashes|e]; [|done]. simpl.
  destruct (networkById (networkId node)) as [network|e]; simpl.
  - match goal with |- context [Promise_all _ ?x] => set (s1 := x) end.
    destruct (Promise_all_getInfo_fetches
                (List.filter (λ n, bool_decide (status n = Status.Started))
                   (bitcoin (Network.nodes network))) s1) as (evs & Htr & Hf).
    exists evs. split_and!; [|done|done].
    destruct (Promise_all _ s1) as [[vs|e] s2]; simpl in *;
      rewrite Htr, <-!app_assoc; done.
  - exists []. split_and!; [|done|].
    + by rewrite <-!app_assoc.
    + intros e' [= ->]. done.
Qed.

(** X6: the bitcoind service is asked to mine exactly when the block count is
    not negative, zero included, and that request is then the first thing
    [mine] does. *)
Theorem mine_first_call (blocks : Z) (node : BitcoinNode) (s : Store) :
  head (issued (mine blocks node) s)
  = if decide (blocks < 0)%Z then None else Some (CallMine blocks node).
Proof.
  case_decide as Hneg.
  - unfold issued, BitcoindModel.mine. rewrite decide_True by done.
    unfold throw; simpl. by rewrite drop_all.
  - pose proof (mine_events blocks node s Hneg) as Hev. unfold issued.
    destruct (service_mine _ _ _ _) as [hashes|e].
    + destruct Hev as (evs & -> & _). by rewrite drop_app_length.
    + rewrite Hev. simpl. by rewrite drop_app_length.
Qed.

(** X7: when the bitcoind service fails to mine, [mine] rejects with that
    error right away: there is no delay, no info is fetched and the cache is
    unchanged. *)
Theorem mine_service_failure (blocks : Z) (node : BitcoinNode) (s : Store) e :
  (0 ≤ blocks)%Z →
  service_mine bitcoindService (trace s) blocks node = Throw e →
  (mine blocks node s).1 = Throw e
  ∧ issued (mine blocks node) s = [CallMine blocks node]
  ∧ state (mine blocks node s).2 = state s.
Proof.
  intros Hge Hfail.
  pose proof (mine_events blocks node s ltac:(lia)) as Hev.
  rewrite Hfail in Hev. unfold issued. rewrite Hev. simpl.
  by rewrite drop_app_length.
Qed.

(** X8: once the blocks are mined, [mine] waits its 500 ms and only then
    refreshes: the mine request and the delay are the first two events, each
    issued once, and all that follows is the fetching and setting of node
    info. *)
Theorem mine_settles_before_refresh (blocks : Z) (node : BitcoinNode) (s : Store)
    hashes :
  (0 ≤ blocks)%Z →
  service_mine bitcoindService (trace s) blocks node = Return hashes →
  ∃ evs,
    issued (mine blocks node) s = CallMine blocks node :: Delay 500 :: evs
    ∧ Forall (λ ev, match ev with
                    | CallGetBlockchainInfo _ | CallGetWalletInfo _
                    | SetInfo _ _ _ => True
                    | _ => False
                    end) evs.
Proof.
  intros Hge Hmined.
  pose proof (mine_events blocks node s ltac:(lia)) as Hev.
  rewrite Hmined in Hev. destruct Hev as (evs & Htr & ? & _). exists evs.
  split; [|done]. unfold issued. by rewrite Htr, drop_app_length.
Qed.

(** X9: the network of the node is looked up after the blocks are mined: when
    the store does not know the network, the blocks are mined all the same,
    [mine] rejects with the error of the lookup, and nothing is refreshed. *)
Theorem mine_unknown_network (blocks : Z) (node : BitcoinNode) (s : Store)
    hashes e :
  (0 ≤ blocks)%Z →
  service_mine bitcoindService (trace s) blocks node = Return hashes →
  networkById (networkId node) = Throw e →
  (mine blocks node s).1 = Throw e
  ∧ issued (mine blocks node) s = [CallMine blocks node; Delay 500]
  ∧ state (mine blocks node s).2 = state s.
Proof.
  intros Hge Hmined Hnet.
  pose proof (mine_events blocks node s ltac:(lia)) as Hev.
  rewrite Hmined in Hev. destruct Hev as (evs & Htr & _ & Hunknown).
  destruct (Hunknown e Hnet) as (? & -> & ?).
  split_and!; [done| |done]. unfold issued. by rewrite Htr, drop_app_length.
Qed.

(** The trace of [mine] past the guard starts with the mine request. *)
Lemma mine_trace (blocks : Z) (node : BitcoinNode) (s : Store) :
  ¬ (blocks < 0)%Z →
  ∃ evs, trace (mine blocks node s).2 = trace s ++ CallMine blocks node :: evs.
Proof.
  intros Hge. pose proof (mine_events blocks node s Hge) as Hev.
  destruct (service_mine _ _ _ _) as [hashes|e].
  - destruct Hev as (evs & -> & _). eauto.
  - rewrite Hev. by exists [].
Qed.

(** ** Sending funds *)

(** X10: when the funds cannot be sent, [sendFunds] rejects with the error of
    the service and nothing is mined, with or without [autoMine]; the cache
    is unchanged. *)
Theorem sendFunds_failure_mines_nothing (node : BitcoinNode) toAddress
    (amount : Amount) (autoMine : bool) (s : Store) e :
  service_sendFunds bitcoindService (trace s) node toAddress amount = Throw e →
  (sendFunds node toAddress amount autoMine s).1 = Throw e
  ∧ issued (sendFunds node toAddress amount autoMine) s
    = [CallSendFunds node toAddress amount]
  ∧ state (sendFunds node toAddress amount autoMine s).2 = state s.
Proof.
  intros Hfail. unfold issued, BitcoindModel.sendFunds, bindA, call.
  rewrite Hfail. simpl. by rewrite drop_app_length.
Qed.

(** X11: without [autoMine], sent funds are all that happens: the id of the
    transaction is returned, nothing is mined and the cache is unchanged.
    With [autoMine], the request that follows the sending is to mine 6 blocks
    on the node the funds were sent from. *)
Theorem sendFunds_autoMine_six (node : BitcoinNode) toAddress (amount : Amount)
    (s : Store) txid :
  service_sendFunds bitcoindService (trace s) node toAddress amount = Return txid →
  (sendFunds node toAddress amount false s).1 = Return txid
  ∧ issued (sendFunds node toAddress amount false) s
    = [CallSendFunds node toAddress amount]
  ∧ state (sendFunds node toAddress amount false s).2 = state s
  ∧ ∃ evs, issued (sendFunds node toAddress amount true) s
           = CallSendFunds node toAddress amount :: CallMine 6 node :: evs.
Proof.
  intros Hsent. unfold issued, BitcoindModel.sendFunds, bindA, call, ret.
  rewrite Hsent. simpl. split_and!; [done|by rewrite drop_app_length|done|].
  set (s1 := record (CallSendFunds node toAddress amount) s).
  destruct (mine_trace 6 node s1 ltac:(lia)) as [evs Htr].
  exists evs.
  destruct (mine 6 node s1) as [[[]|e] s2]; simpl in *;
    rewrite Htr, <-app_assoc, drop_app_length; done.
Qed.

(** X12: with [autoMine], the id of a transaction that was sent is lost when
    the mining fails: [sendFunds] rejects with the error of the mining,
    although the funds have left. *)
Theorem sendFunds_txid_lost (node : BitcoinNode) toAddress (amount : Amount)
    (s : Store) txid e :
  service_sendFunds bitcoindService (trace s) node toAddress amount = Return txid →
  service_mine bitcoindService
    (trace s ++ [CallSendFunds node toAddress amount]) 6 node = Throw e →
  (sendFunds node toAddress amount true s).1 = Throw e
  ∧ issued (sendFunds node toAddress amount true) s
    = [CallSendFunds node toAddress amount; CallMine 6 node]
  ∧ state (sendFunds node toAddress amount true s).2 = state s.
Proof.
  intros Hsent Hfail. unfold issued, BitcoindModel.sendFunds, bindA, call, ret.
  rewrite Hsent. simpl.
  set (s1 := record (CallSendFunds node toAddress amount) s).
  pose proof (mine_events 6 node s1 ltac:(lia)) as Hev.
  simpl in Hev. rewrite Hfail in Hev. rewrite Hev. simpl.
  by rewrite <-app_assoc, drop_app_length.
Qed.

(** ** The mining controls of the network actions *)

(** X13: after [mine] has resolved on a node whose network is the displayed
    one, the mining controls of a network whose first bitcoin node is started
    are rendered: the chain info of that node is in the cache. *)
Theorem mineControls_after_mine (blocks : Z) (node first : BitcoinNode)
    (network : Network.t) (s : Store) :
  (mine blocks node s).1 = Return () →
  networkById (networkId node) = Return network →
  bitcoin (Network.nodes network) !! 0%nat = Some first →
  status first = Status.Started →
  NetworkActions.mineControls network (state (mine blocks node s).2) = Return true.
Proof.
  unfold BitcoindModel.mine, NetworkActions.mineControls.
  intros Hres Hnet Hfirst Hstarted. revert Hres.
  unfold BitcoinNode in *. rewrite Hfirst.
  destruct (decide (blocks < 0)%Z) as [|Hge]; [done|].
  unfold bindA, call, delay, ofResult, ret; simpl.
  destruct (service_mine _ _ _ _) as [hashes|e]; [|done]. simpl.
  rewrite Hnet. simpl.
  destruct (Promise_all _ _) as [[vs|e] s'] eqn:Hall; [|done]. simpl.
  intros _.
  apply Promise_all_getInfo in Hall as (evs & _ & _ & Hset & _).
  destruct (Hset first) as (m & ci & wi & _ & _ & _ & ->).
  { apply list_elem_of_In, filter_In. split.
    - apply list_elem_of_In. by eapply list_elem_of_lookup_2.
    - by apply bool_decide_eq_true. }
  simpl. rewrite !bool_decide_eq_true_2 by eauto. done.
Qed.

(** X14: once the first bitcoin node is removed from the cache, or the cache
    is cleared, the mining controls are not rendered, whatever the status of
    the node. *)
Theorem mineControls_after_removeNode (network : Network.t) (first : BitcoinNode)
    (st : State) :
  bitcoin (Network.nodes network) !! 0%nat = Some first →
  NetworkActions.mineControls network (removeNode first st) = Return false
  ∧ NetworkActions.mineControls network (clearNodes st) = Return false.
Proof.
  intros Hfirst. unfold NetworkActions.mineControls, removeNode, clearNodes.
  unfold BitcoinNode in *. rewrite Hfirst. simpl. rewrite lookup_delete_eq, lookup_empty.
  by rewrite !andb_false_r.
Qed.

End BitcoindModelCache.

(** * Further properties of the docker service *)

Section DockerServiceLifecycle.

Import DockerService.

Context {IChart : Type} (lib : Library IChart) (rt : Runtime).

(** ** Options and versions *)

Lemma getOpts_run network (w : World) :
  ∃ opts, getOpts lib network w = (Return opts, w)
          ∧ cwd opts = match network with
                       | Some n => Network.path n
                       | None => dirname lib
                       end
          ∧ executablePath opts = composeFilePath w.
Proof. unfold getOpts. eexists. split; [reflexivity|]. done. Qed.

Lemma getOpts_record' network ev (w : World) :
  getOpts lib network (record ev w) = ((getOpts lib network w).1, record ev w).
Proof. reflexivity. Qed.

(** X16: without [throwOnError], [getVersions] resolves whatever the two
    probes do, and both probes are always made: a version that could not be
    detected is the empty string, the docker version is the one the engine
    reports, and the compose version is the trimmed output of the compose
    tool, colour codes stripped. *)
Theorem getVersions_lenient (w : World) :
  ∃ versions opts,
    (getVersions lib rt false w).1 = Return versions
    ∧ (getOpts lib None w).1 = Return opts
    ∧ issued (getVersions lib rt false) w = [DockerVersion; Compose version opts]
    ∧ docker versions = match docker_version rt (trace w) with
                        | Return dockerVersion => dockerVersion
                        | Throw _ => ""
                        end
    ∧ compose versions
      = match compose_run rt (trace w ++ [DockerVersion]) version opts with
        | Fulfilled result => trim lib (stripAnsi lib (out result))
        | Rejected _ => ""
        end.
Proof.
  destruct (getOpts_run None w) as (opts & Hopts & _).
  exists {| docker := match docker_version rt (trace w) with
                      | Return dockerVersion => dockerVersion
                      | Throw _ => ""
                      end;
            compose := match compose_run rt (trace w ++ [DockerVersion]) version opts with
                       | Fulfilled result => trim lib (stripAnsi lib (out result))
                       | Rejected _ => ""
                       end |}, opts.
  rewrite Hopts.
  unfold issued, getVersions, tryCatch, bindA, docker_version_call, ret, throw,
    execute.
  destruct (docker_version rt (trace w)) as [d|e]; cbn -[getOpts];
    rewrite getOpts_record', Hopts; cbn;
    destruct (compose_run _ _ _ _) as [r|e']; cbn;
    (split_and!; [done|done| |done|done]);
    by rewrite <-app_assoc, drop_app_length.
Qed.

(** X17: with [throwOnError], the first probe that fails ends the detection:
    when the docker engine cannot be reached, [getVersions] rejects with that
    error and the compose tool is not asked at all. *)
Theorem getVersions_strict_docker_failure (w : World) e :
  docker_version rt (trace w) = Throw e →
  (getVersions lib rt true w).1 = Throw e
  ∧ issued (getVersions lib rt true) w = [DockerVersion].
Proof.
  intros Hfail.
  unfold issued, getVersions, tryCatch, bindA, docker_version_call, ret, throw.
  rewrite Hfail. simpl. by rewrite drop_app_length.
Qed.

(** X18: [setPaths] keeps a compose path for the compose calls that follow,
    and takes the empty string for no path at all; it touches neither the
    disk nor the runtime. *)
Theorem setPaths_getOpts (dockerSocketPath' composeFilePath' : string)
    network (w : World) :
  ∃ opts,
    (getOpts lib network (setPaths dockerSocketPath' composeFilePath' w).2).1
    = Return opts
    ∧ executablePath opts
      = (if decide (composeFilePath' = "") then None else Some composeFilePath')
    ∧ files (setPaths dockerSocketPath' composeFilePath' w).2 = files w
    ∧ dirs (setPaths dockerSocketPath' composeFilePath' w).2 = dirs w
    ∧ trace (setPaths dockerSocketPath' composeFilePath' w).2 = trace w.
Proof.
  destruct (getOpts_run network (setPaths dockerSocketPath' composeFilePath' w).2)
    as (opts & Hopts & _ & Hexe).
  exists opts. rewrite Hopts. by split_and!.
Qed.

(** X19: on Linux the ids of the host user and group always reach the
    environment of a compose call, replacing what the process environment may
    hold under those names; every other variable is the one of the remote
    process when it has one, and the one of the local process otherwise. *)
Theorem getOpts_linux_ids network (w : World) :
  isLinux lib = true →
  ∃ opts,
    (getOpts lib network w).1 = Return opts
    ∧ env opts !! "USERID" = Some (pretty (userInfo lib).1)
    ∧ env opts !! "GROUPID" = Some (pretty (userInfo lib).2)
    ∧ (∀ key, key ≠ "USERID" → key ≠ "GROUPID" →
         env opts !! key
         = match default ∅ (remote_process_env lib) !! key with
           | Some value => Some value
           | None => process_env lib !! key
           end).
Proof.
  intros Hlinux. unfold getOpts. rewrite Hlinux. eexists. simpl.
  split_and!; [done|simpl..].
  - rewrite lookup_insert_ne by done. by rewrite lookup_insert_eq.
  - by rewrite lookup_insert_eq.
  - intros key H1 H2. rewrite !lookup_insert_ne by done.
    rewrite lookup_union.
    destruct (default ∅ (remote_process_env lib) !! key) as [v|];
      destruct (process_env lib !! key); done.
Qed.

(** ** Directories *)

Lemma ensureDir_success dir (w w' : World) :
  ensureDir rt dir w = (Return (), w') →
  files w' = files w ∧ dirs w' = {[dir]} ∪ dirs w
  ∧ composeFilePath w' = composeFilePath w.
Proof.
  unfold ensureDir. destruct (fs_ensureDir _ _ _) as [[]|e]; [|done].
  by intros [= <-].
Qed.

Local Ltac solve_dirs Hd :=
  try (intros ? ?); apply Hd;
  repeat match goal with H : dirs _ = _ ∪ _ |- _ => rewrite H; clear H end;
  rewrite ?elem_of_union, ?elem_of_singleton; tauto.

Lemma ensureDirs_success network ns (w w' : World) :
  ensureDirs lib rt network ns w = (Return (), w') →
  files w' = files w ∧ dirs w ⊆ dirs w'
  ∧ ∀ n, n ∈ ns →
      nodePath lib network (implementation n) (name n) ∈ dirs w'
      ∧ (implementation n = LightningImpl c_lightning →
         join lib (nodePath lib network (implementation n) (name n))
           (clightning_dataDir lib) ∈ dirs w'
         ∧ join lib (nodePath lib network (implementation n) (name n))
             (clightning_apiDir lib) ∈ dirs w').
Proof.
  revert w. induction ns as [|n ns IH]; intros w; simpl.
  - intros [= <-]. split_and!; [done..|]. by intros n ?%elem_of_nil.
  - unfold bindA at 1.
    destruct (ensureDir rt _ w) as [[[]|e] w1] eqn:H1; [|done].
    apply ensureDir_success in H1 as (Hf1 & Hd1 & _).
    unfold bindA at 1.
    destruct (decide (implementation n = LightningImpl c_lightning)) as [Hcl|Hcl].
    + unfold bindA at 1.
      destruct (ensureDir rt _ w1) as [[[]|e] w2] eqn:H2; [|done].
      apply ensureDir_success in H2 as (Hf2 & Hd2 & _).
      destruct (ensureDir rt _ w2) as [[[]|e] w3] eqn:H3; [|done].
      apply ensureDir_success in H3 as (Hf3 & Hd3 & _).
      intros (Hf & Hd & Hns)%IH.
      split_and!; [congruence|solve_dirs Hd|].
      intros n' [->|Hn']%elem_of_cons; [|by apply Hns].
      split; [solve_dirs Hd|]. intros _. split; solve_dirs Hd.
    + unfold ret at 1. intros (Hf & Hd & Hns)%IH.
      split_and!; [congruence|solve_dirs Hd|].
      intros n' [->|Hn']%elem_of_cons; [|by apply Hns].
      split; [solve_dirs Hd|done].
Qed.

(** X20: when [ensureDirs] resolves, the directory of every node exists, and
    for a c-lightning node its data and api directories as well; directories
    that existed still do, and no file has changed. *)
Theorem ensureDirs_creates network (ns : list (CommonNode NodeImplementation))
    (w : World) :
  (ensureDirs lib rt network ns w).1 = Return () →
  files (ensureDirs lib rt network ns w).2 = files w
  ∧ dirs w ⊆ dirs (ensureDirs lib rt network ns w).2
  ∧ ∀ n, n ∈ ns →
      nodePath lib network (implementation n) (name n)
      ∈ dirs (ensureDirs lib rt network ns w).2
      ∧ (implementation n = LightningImpl c_lightning →
         join lib (nodePath lib network (implementation n) (name n))
           (clightning_dataDir lib) ∈ dirs (ensureDirs lib rt network ns w).2
         ∧ join lib (nodePath lib network (implementation n) (name n))
             (clightning_apiDir lib) ∈ dirs (ensureDirs lib rt network ns w).2).
Proof.
  destruct (ensureDirs lib rt network ns w) as [[[]|e] w'] eqn:Hrun; [|done].
  intros _. simpl. by apply ensureDirs_success.
Qed.

(** ** Starting, stopping and removing *)

Lemma execute_run cmd opts (w : World) :
  (execute lib rt cmd opts w).2 = record (Compose cmd opts) w
  ∧ ((execute lib rt cmd opts w).1
     = match compose_run rt (trace w) cmd opts with
       | Fulfilled result =>
           Return {| exitCode := exitCode result;
                     out := stripAnsi lib (out result);
                     err := stripAnsi lib (err result) |}
       | Rejected e =>
           Throw (Error (if decide (stripAnsi lib (err e) = "")
                         then JSON_stringify_result lib
                                {| exitCode := exitCode e; out := out e;
                                   err := stripAnsi lib (err e) |}
                         else stripAnsi lib (err e)))
       end).
Proof. unfold execute. by destruct (compose_run _ _ _ _). Qed.

(** X21: a network that [start] has started has the directories of all its
    nodes on disk, created before the one compose command, the bulk up, was
    run in the directory of the network. *)
Theorem start_creates_dirs_then_up (network : Network.t) (w : World) :
  (start lib rt network w).1 = Return () →
  ∃ ds opts,
    issued (start lib rt network) w = (EnsureDir <$> ds) ++ [Compose upAll opts]
    ∧ cwd opts = Network.path network
    ∧ (∀ b : BitcoinNode, b ∈ bitcoin (Network.nodes network) →
         nodePath lib network (BitcoinImpl (implementation b)) (name b)
         ∈ dirs (start lib rt network w).2)
    ∧ (∀ ln : LightningNode, ln ∈ lightning (Network.nodes network) →
         nodePath lib network (LightningImpl (implementation ln)) (name ln)
         ∈ dirs (start lib rt network w).2).
Proof.
  unfold issued, start, bindA, ret.
  set (ns := (commonOfBitcoin <$> bitcoin (Network.nodes network))
             ++ (commonOfLightning <$> lightning (Network.nodes network))).
  destruct (ensureDirs_trace lib rt network ns w) as [ds Hds].
  destruct (ensureDirs lib rt network ns w) as [[[]|e] w1] eqn:Hdirs; [|done].
  simpl in Hds. apply ensureDirs_success in Hdirs as (_ & _ & Hns).
  destruct (getOpts_run (Some network) w1) as (opts & -> & Hcwd & _).
  destruct (execute_run upAll opts w1) as [Hw Hres].
  destruct (execute lib rt upAll opts w1) as [[r|e] w2]; [|done].
  simpl in Hw. subst w2. intros _. exists ds, opts. simpl.
  split_and!; [by rewrite Hds, <-app_assoc, drop_app_length|done| |].
  - intros b Hb. apply (Hns (commonOfBitcoin b)).
    apply elem_of_app. left. apply list_elem_of_fmap. eauto.
  - intros ln Hln. apply (Hns (commonOfLightning ln)).
    apply elem_of_app. right. apply list_elem_of_fmap. eauto.
Qed.

(** X22: when a directory of a node cannot be created, [start] rejects with
    that error and no compose command is run. *)
Theorem start_dirs_failure (network : Network.t) (w : World) e :
  (ensureDirs lib rt network
     ((commonOfBitcoin <$> bitcoin (Network.nodes network))
      ++ (commonOfLightning <$> lightning (Network.nodes network))) w).1 = Throw e →
  (start lib rt network w).1 = Throw e
  ∧ ∀ cmd opts, Compose cmd opts ∉ issued (start lib rt network) w.
Proof.
  unfold issued, start, bindA.
  set (ns := (commonOfBitcoin <$> bitcoin (Network.nodes network))
             ++ (commonOfLightning <$> lightning (Network.nodes network))).
  destruct (ensureDirs_trace lib rt network ns w) as [ds Hds].
  destruct (ensureDirs lib rt network ns w) as [[[]|e'] w1]; [done|].
  simpl in *. intros [= ->]. split; [done|].
  intros cmd opts. rewrite Hds, drop_app_length.
  by intros (? & ? & _)%list_elem_of_fmap.
Qed.

(** X23: [removeNode] stops the container of the node and then removes it:
    the remove command is run exactly when the stop succeeded, both in the
    directory of the network, and the node is removed only when both
    succeed. *)
Theorem removeNode_stops_then_removes (network : Network.t)
    (node : CommonNode NodeImplementation) (w : World) :
  ∃ opts,
    (getOpts lib (Some network) w).1 = Return opts
    ∧ cwd opts = Network.path network
    ∧ issued (removeNode lib rt network node) w
      = Compose (stopOne (name node)) opts
        :: match compose_run rt (trace w) (stopOne (name node)) opts with
           | Fulfilled _ => [Compose (rm (name node)) opts]
           | Rejected _ => []
           end
    ∧ ((removeNode lib rt network node w).1 = Return ()
       ↔ ∃ r1 r2,
           compose_run rt (trace w) (stopOne (name node)) opts = Fulfilled r1
           ∧ compose_run rt (trace w ++ [Compose (stopOne (name node)) opts])
               (rm (name node)) opts = Fulfilled r2).
Proof.
  destruct (getOpts_run (Some network) w) as (opts & Hopts & Hcwd & _).
  exists opts. rewrite Hopts. split_and!; [done|done|..];
    unfold issued, removeNode, bindA, ret; rewrite Hopts;
    destruct (execute_run (stopOne (name node)) opts w) as [Hw1 Hr1];
    destruct (execute lib rt (stopOne (name node)) opts w) as [r1 w1];
    simpl in Hw1, Hr1; subst w1 r1;
    destruct (compose_run rt (trace w) (stopOne (name node)) opts) as [r|e];
    cbn -[getOpts].
  - rewrite getOpts_record', Hopts. simpl.
    destruct (execute_run (rm (name node)) opts
                (record (Compose (stopOne (name node)) opts) w)) as [Hw2 _].
    destruct (execute lib rt (rm (name node)) opts _) as [[r2|e2] w2];
      simpl in Hw2; subst w2; simpl;
      by rewrite <-app_assoc, drop_app_length.
  - by rewrite drop_app_length.
  - rewrite getOpts_record', Hopts. simpl.
    destruct (execute_run (rm (name node)) opts
                (record (Compose (stopOne (name node)) opts) w)) as [_ Hr2].
    destruct (execute lib rt (rm (name node)) opts _) as [r2 w2].
    simpl in Hr2. subst r2.
    destruct (compose_run _ _ (rm (name node)) opts) as [r'|e']; simpl.
    + split; [eauto|done].
    + split; [done|]. by intros (? & ? & _ & ?).
  - split; [done|]. by intros (? & ? & ? & _).
Qed.

(** X24: when the stop of the node fails, [startNode] rejects with the error
    of the stop, and the node is not started. *)
Theorem startNode_stop_failure (network : Network.t)
    (node : CommonNode NodeImplementation) (w : World) opts e :
  (ensureDirs lib rt network [node] w).1 = Return () →
  (getOpts lib (Some network) w).1 = Return opts →
  compose_run rt (trace (ensureDirs lib rt network [node] w).2)
    (stopOne (name node)) opts = Rejected e →
  (∃ message, (startNode lib rt network node w).1 = Throw (Error message))
  ∧ ∀ service opts', Compose (upOne service) opts'
                     ∉ issued (startNode lib rt network node) w.
Proof.
  intros Hdirs Hopts Hstop.
  unfold issued, startNode, stopNode, bindA, ret.
  destruct (ensureDirs_trace lib rt network [node] w) as [ds Hds].
  destruct (ensureDirs lib rt network [node] w) as [[[]|e'] w1] eqn:Hrun; [|done].
  simpl in Hds, Hstop.
  assert (getOpts lib (Some network) w1 = (Return opts, w1)) as ->.
  { destruct (getOpts_run (Some network) w1) as (opts1 & H1 & _).
    rewrite H1. f_equal.
    assert (composeFilePath w1 = composeFilePath w) as Hpath.
    { clear -Hrun. revert Hrun. simpl. unfold bindA.
      destruct (ensureDir rt _ w) as [[[]|?] wa] eqn:Ha; [|done].
      apply ensureDir_success in Ha as (_ & _ & Ha).
      case_decide.
      - destruct (ensureDir rt _ wa) as [[[]|?] wb] eqn:Hb; [|done].
        apply ensureDir_success in Hb as (_ & _ & Hb).
        destruct (ensureDir rt _ wb) as [[[]|?] wc] eqn:Hc; [|done].
        apply ensureDir_success in Hc as (_ & _ & Hc).
        unfold ret. intros [= <-]. congruence.
      - unfold ret. intros [= <-]. congruence. }
    unfold getOpts in H1, Hopts. simpl in H1, Hopts.
    injection H1 as <-. injection Hopts as <-. by rewrite Hpath. }
  destruct (execute_run (stopOne (name node)) opts w1) as [Hw Hr].
  destruct (execute lib rt (stopOne (name node)) opts w1) as [r w2].
  simpl in Hw, Hr. subst w2 r. rewrite Hstop. simpl.
  split; [eauto|]. intros service opts'.
  rewrite Hds, <-app_assoc, drop_app_length.
  intros [Hin|Hin]%elem_of_app.
  - by apply list_elem_of_fmap in Hin as (? & ? & _).
  - by apply list_elem_of_singleton in Hin.
Qed.

(** ** Loading the networks *)

Local Abbreviation networksJson := (join lib (networksPath lib) "networks.json").
Local Abbreviation legacyNetworks := (join lib (legacyDataPath lib) "networks").
Local Abbreviation onDisk :=
  (λ (path : string) (w : World), is_Some (files w !! path) ∨ path ∈ dirs w).
Local Abbreviation emptyNetworksFile :=
  ({| NetworksFile.version := APP_VERSION lib;
      NetworksFile.networks := [];
      NetworksFile.charts := ∅ |} : NetworksFile.t IChart).

(** What [loadNetworks] does with the file it finds. *)
Lemma loadNetworks_reads (w : World) json :
  files w !! networksJson = Some json →
  loadNetworks lib rt w
  = match JSON_parse lib json with
    | Throw e => (Throw e, w)
    | Return data =>
        if bool_decide (NetworksFile.version data ≠ APP_VERSION lib)
           || bool_decide (NODE_ENV lib ≠ Some "production")
        then match migrateNetworksFile lib data with
             | Throw e => (Throw e, w)
             | Return data' =>
                 (Return data',
                  setFiles (<[networksJson := JSON_stringify lib data']> (files w)) w)
             end
        else (Return data, w)
    end.
Proof.
  intros Hfile.
  unfold loadNetworks, saveNetworks, bindA, exists_, write, read, ret, ofResult.
  rewrite (bool_decide_eq_true_2 (onDisk networksJson w)) by (left; eauto).
  simpl. rewrite (bool_decide_eq_true_2 (onDisk networksJson w)) by (left; eauto).
  rewrite Hfile.
  destruct (JSON_parse lib json) as [data|e]; [|done].
  destruct (_ || _); [|done].
  by destruct (migrateNetworksFile lib data).
Qed.

(** X25: with no networks file and no data of a previous version on disk,
    [loadNetworks] returns an empty document at the current version; it
    writes nothing and copies nothing. *)
Theorem loadNetworks_nothing_on_disk (w : World) :
  ¬ onDisk networksJson w →
  ¬ onDisk legacyNetworks w →
  loadNetworks lib rt w = (Return emptyNetworksFile, w).
Proof.
  intros Hpath Hlegacy.
  unfold loadNetworks, bindA, exists_, ret.
  rewrite (bool_decide_eq_false_2 (onDisk networksJson w)) by done.
  rewrite (bool_decide_eq_false_2 (onDisk legacyNetworks w)) by done.
  simpl. by rewrite (bool_decide_eq_false_2 (onDisk networksJson w)) by done.
Qed.

(** X26: a copy of the legacy data that fails is not an error: the copy is
    attempted once, and [loadNetworks] returns the empty document as if there
    were no data. *)
Theorem loadNetworks_copy_failure_swallowed (w : World) e :
  ¬ onDisk networksJson w →
  onDisk legacyNetworks w →
  fs_copy rt (trace w) legacyNetworks (networksPath lib) (files w) = Throw e →
  loadNetworks lib rt w
  = (Return emptyNetworksFile, record (Copy legacyNetworks (networksPath lib)) w).
Proof.
  intros Hpath Hlegacy Hcopy.
  unfold loadNetworks, copyLegacyData, tryCatch, copy, bindA, exists_, ret.
  rewrite (bool_decide_eq_false_2 (onDisk networksJson w)) by done.
  rewrite (bool_decide_eq_true_2 (onDisk legacyNetworks w)) by done.
  simpl. rewrite Hcopy. simpl.
  by rewrite (bool_decide_eq_false_2 (onDisk networksJson w)) by done.
Qed.

(** X27: with the data of a previous version only, loading is copying that
    data and then loading: when the copy brings a networks file,
    [loadNetworks] answers what it answers on the disk after the copy. *)
Theorem loadNetworks_copies_legacy (w : World) fs :
  ¬ onDisk networksJson w →
  onDisk legacyNetworks w →
  fs_copy rt (trace w) legacyNetworks (networksPath lib) (files w) = Return fs →
  is_Some (fs !! networksJson) →
  loadNetworks lib rt w
  = loadNetworks lib rt
      (setFiles fs (record (Copy legacyNetworks (networksPath lib)) w)).
Proof.
  intros Hpath Hlegacy Hcopy Hfs.
  set (w1 := setFiles fs (record (Copy legacyNetworks (networksPath lib)) w)).
  assert (onDisk networksJson w1) as Hpath1 by (by left).
  unfold loadNetworks, copyLegacyData, tryCatch, copy, bindA, exists_, ret.
  rewrite (bool_decide_eq_false_2 (onDisk networksJson w)) by done.
  rewrite (bool_decide_eq_true_2 (onDisk legacyNetworks w)) by done.
  rewrite (bool_decide_eq_true_2 (onDisk networksJson w1)) by done.
  simpl. rewrite Hcopy. simpl. fold w1.
  by rewrite (bool_decide_eq_true_2 (onDisk networksJson w1)) by done.
Qed.

(** X28: a document that is migrated on load, because its version is not the
    current one or because the application does not run in production, is
    persisted before it is returned: the networks file then holds the
    migrated document, and no other file has changed. *)
Theorem loadNetworks_persists_migration (w : World) json data data' :
  files w !! networksJson = Some json →
  JSON_parse lib json = Return data →
  NetworksFile.version data ≠ APP_VERSION lib ∨ NODE_ENV lib ≠ Some "production" →
  migrateNetworksFile lib data = Return data' →
  (loadNetworks lib rt w).1 = Return data'
  ∧ files (loadNetworks lib rt w).2 !! networksJson
    = Some (JSON_stringify lib data')
  ∧ (∀ path, path ≠ networksJson →
       files (loadNetworks lib rt w).2 !! path = files w !! path)
  ∧ trace (loadNetworks lib rt w).2 = trace w.
Proof.
  intros Hfile Hparse Hcond Hmigrate.
  rewrite (loadNetworks_reads w json Hfile), Hparse, Hmigrate.
  assert (bool_decide (NetworksFile.version data ≠ APP_VERSION lib)
          || bool_decide (NODE_ENV lib ≠ Some "production") = true) as ->.
  { apply orb_true_iff. destruct Hcond; [left|right]; by apply bool_decide_eq_true. }
  simpl. split_and!; [done|by rewrite lookup_insert_eq| |done].
  intros path Hne. by rewrite lookup_insert_ne.
Qed.

(** X29: a networks file that cannot be parsed, or whose document cannot be
    migrated, is left as it is: [loadNetworks] rejects with the error and the
    disk is unchanged. *)
Theorem loadNetworks_failure_keeps_file (w : World) json e :
  files w !! networksJson = Some json →
  JSON_parse lib json = Throw e
  ∨ (∃ data, JSON_parse lib json = Return data
             ∧ (NetworksFile.version data ≠ APP_VERSION lib
                ∨ NODE_ENV lib ≠ Some "production")
             ∧ migrateNetworksFile lib data = Throw e) →
  loadNetworks lib rt w = (Throw e, w).
Proof.
  intros Hfile [Hparse|(data & Hparse & Hcond & Hmigrate)];
    rewrite (loadNetworks_reads w json Hfile), Hparse; [done|].
  rewrite Hmigrate.
  assert (bool_decide (NetworksFile.version data ≠ APP_VERSION lib)
          || bool_decide (NODE_ENV lib ≠ Some "production") = true) as ->; [|done].
  apply orb_true_iff. destruct Hcond; [left|right]; by apply bool_decide_eq_true.
Qed.

(** X30: in production, a networks file at the current version is only read:
    [loadNetworks] returns the parsed document and changes nothing. *)
Theorem loadNetworks_production_reads_only (w : World) json data :
  files w !! networksJson = Some json →
  JSON_parse lib json = Return data →
  NetworksFile.version data = APP_VERSION lib →
  NODE_ENV lib = Some "production" →
  loadNetworks lib rt w = (Return data, w).
Proof.
  intros Hfile Hparse Hversion Hprod.
  rewrite (loadNetworks_reads w json Hfile), Hparse.
  rewrite (bool_decide_eq_false_2 (NetworksFile.version data ≠ _)) by tauto.
  by rewrite (bool_decide_eq_false_2 (NODE_ENV lib ≠ _)) by tauto.
Qed.

(** ** Resolving the backend *)

(** X15: when bitcoin nodes have the name a lightning node gives as its
    backend, the backend is the first of them in the sequence. *)
Theorem findBackend_first_match (bitcoin : list BitcoinNode) (backendName : string) :
  (∃ b : BitcoinNode, b ∈ bitcoin ∧ name b = backendName) →
  ∃ before (b : BitcoinNode) after,
    bitcoin = before ++ b :: after
    ∧ name b = backendName
    ∧ (∀ b' : BitcoinNode, b' ∈ before → name b' ≠ backendName)
    ∧ findBackend bitcoin backendName = Some b.
Proof.
  intros (b0 & Hin & Hname).
  assert (∃ before (b : BitcoinNode) after,
            bitcoin = before ++ b :: after ∧ name b = backendName
            ∧ (∀ b' : BitcoinNode, b' ∈ before → name b' ≠ backendName)
            ∧ List.find (λ n, bool_decide (name n = backendName)) bitcoin = Some b)
    as (before & b & after & ? & ? & ? & Hfind).
  { induction bitcoin as [|x bitcoin IH]; [by apply elem_of_nil in Hin|].
    simpl. case_bool_decide as Hx.
    - exists [], x, bitcoin. split_and!; [done..| |done].
      by intros ? ?%elem_of_nil.
    - apply elem_of_cons in Hin as [->|Hin]; [|].
      + by destruct Hx.
      + destruct (IH Hin) as (before & b & after & -> & ? & Hbefore & ?).
        exists (x :: before), b, after. split_and!; [done..| |done].
        intros b' [->|?]%elem_of_cons; [done|by apply Hbefore]. }
  exists before, b, after. split_and!; [done..|].
  unfold findBackend. by rewrite Hfind.
Qed.

End DockerServiceLifecycle.

(** * The further properties on the example network *)

Lemma setInfo_independent_witness :
  (networkId Demo.backend1 ≠ networkId Demo.backend1'
   ∨ name Demo.backend1 ≠ name Demo.backend1')
  ∧ BitcoindModel.nodes
      (BitcoindModel.setInfo Demo.backend1' 7%Z 8%Z
         (BitcoindModel.state Demo.store))
      !! BitcoindModel.getNetworkBackendId Demo.backend1
    = BitcoindModel.nodes (BitcoindModel.state Demo.store)
        !! BitcoindModel.getNetworkBackendId Demo.backend1.
Proof.
  assert (networkId Demo.backend1 ≠ networkId Demo.backend1'
          ∨ name Demo.backend1 ≠ name Demo.backend1') as Hdiff
    by (left; discriminate).
  split; [exact Hdiff|].
  apply (setInfo_independent Demo.backend1 Demo.backend1' 5%Z 6%Z 7%Z 8%Z
           (BitcoindModel.state Demo.store) Hdiff).
Defined.

Lemma getInfo_failure_keeps_cache_witness :
  (BitcoindModel.getInfo Demo.bitcoindDown Demo.backend1 Demo.store).1
  = Throw (Error "ECONNREFUSED")
  ∧ BitcoindModel.state
      (BitcoindModel.getInfo Demo.bitcoindDown Demo.backend1 Demo.store).2
    = BitcoindModel.state Demo.store.
Proof.
  assert ((BitcoindModel.getInfo Demo.bitcoindDown Demo.backend1 Demo.store).1
          = Throw (Error "ECONNREFUSED")) as Hfail by reflexivity.
  split; [exact Hfail|].
  apply (getInfo_failure_keeps_cache Demo.bitcoindDown Demo.backend1 Demo.store
           (Error "ECONNREFUSED") Hfail).
Defined.

Lemma getInfo_caches_answers_witness :
  (BitcoindModel.getInfo Demo.bitcoindService Demo.backend1 Demo.store).1 = Return ()
  ∧ ∃ ci, BitcoindModel.service_getBlockchainInfo Demo.bitcoindService
            (BitcoindModel.trace Demo.store) Demo.backend1 = Return ci.
Proof.
  assert ((BitcoindModel.getInfo Demo.bitcoindService Demo.backend1 Demo.store).1
          = Return ()) as Hres by reflexivity.
  split; [exact Hres|].
  destruct (getInfo_caches_answers Demo.bitcoindService Demo.backend1 Demo.store Hres)
    as (ci & wi & Hci & _).
  exists ci. exact Hci.
Defined.

Lemma mine_service_failure_witness :
  (0 ≤ 6)%Z
  ∧ BitcoindModel.service_mine Demo.bitcoindDown (BitcoindModel.trace Demo.store)
      6 Demo.backend1 = Throw (Error "ECONNREFUSED")
  ∧ (BitcoindModel.mine (λ key, key) Demo.networkById Demo.bitcoindDown
       6 Demo.backend1 Demo.store).1 = Throw (Error "ECONNREFUSED").
Proof.
  split_and!; [lia|reflexivity|].
  apply (mine_service_failure (λ key, key) Demo.networkById Demo.bitcoindDown
           6 Demo.backend1 Demo.store (Error "ECONNREFUSED")); [lia|reflexivity].
Defined.

Lemma mine_settles_before_refresh_witness :
  (0 ≤ 6)%Z
  ∧ BitcoindModel.service_mine Demo.bitcoindService (BitcoindModel.trace Demo.store)
      6 Demo.backend1 = Return []
  ∧ ∃ evs,
      BitcoindModel.issued
        (BitcoindModel.mine (λ key, key) Demo.networkById Demo.bitcoindService
           6 Demo.backend1) Demo.store
      = BitcoindModel.CallMine 6 Demo.backend1 :: BitcoindModel.Delay 500 :: evs.
Proof.
  split_and!; [lia|reflexivity|].
  destruct (mine_settles_before_refresh (λ key, key) Demo.networkById
              Demo.bitcoindService 6 Demo.backend1 Demo.store [])
    as (evs & Hissued & _); [lia|reflexivity|].
  exists evs. exact Hissued.
Defined.

Lemma mine_unknown_network_witness :
  (0 ≤ 6)%Z
  ∧ BitcoindModel.service_mine Demo.bitcoindService (BitcoindModel.trace Demo.store)
      6 Demo.backend1' = Return []
  ∧ Demo.networkById (networkId Demo.backend1') = Throw (Error "networkByIdErr")
  ∧ (BitcoindModel.mine (λ key, key) Demo.networkById Demo.bitcoindService
       6 Demo.backend1' Demo.store).1 = Throw (Error "networkByIdErr").
Proof.
  split_and!; [lia|reflexivity|reflexivity|].
  apply (mine_unknown_network (λ key, key) Demo.networkById Demo.bitcoindService
           6 Demo.backend1' Demo.store [] (Error "networkByIdErr"));
    [lia|reflexivity|reflexivity].
Defined.

Lemma sendFunds_failure_mines_nothing_witness :
  BitcoindModel.service_sendFunds Demo.bitcoindDown (BitcoindModel.trace Demo.store)
    Demo.backend1 "bcrt1q" 1%Z = Throw (Error "ECONNREFUSED")
  ∧ (BitcoindModel.sendFunds (λ key, key) Demo.networkById Demo.bitcoindDown
       Demo.backend1 "bcrt1q" 1%Z true Demo.store).1 = Throw (Error "ECONNREFUSED").
Proof.
  split; [reflexivity|].
  apply (sendFunds_failure_mines_nothing (λ key, key) Demo.networkById
           Demo.bitcoindDown Demo.backend1 "bcrt1q" 1%Z true Demo.store
           (Error "ECONNREFUSED") eq_refl).
Defined.

Lemma sendFunds_autoMine_six_witness :
  BitcoindModel.service_sendFunds Demo.bitcoindService
    (BitcoindModel.trace Demo.store) Demo.backend1 "bcrt1q" 1%Z = Return "txid"
  ∧ (BitcoindModel.sendFunds (λ key, key) Demo.networkById Demo.bitcoindService
       Demo.backend1 "bcrt1q" 1%Z false Demo.store).1 = Return "txid".
Proof.
  split; [reflexivity|].
  apply (sendFunds_autoMine_six (λ key, key) Demo.networkById Demo.bitcoindService
           Demo.backend1 "bcrt1q" 1%Z Demo.store "txid" eq_refl).
Defined.

Lemma sendFunds_txid_lost_witness :
  BitcoindModel.service_sendFunds Demo.bitcoindNoMining
    (BitcoindModel.trace Demo.store) Demo.backend1 "bcrt1q" 1%Z = Return "txid"
  ∧ BitcoindModel.service_mine Demo.bitcoindNoMining
      (BitcoindModel.trace Demo.store
       ++ [BitcoindModel.CallSendFunds Demo.backend1 "bcrt1q" 1%Z])
      6 Demo.backend1 = Throw (Error "ECONNREFUSED")
  ∧ (BitcoindModel.sendFunds (λ key, key) Demo.networkById Demo.bitcoindNoMining
       Demo.backend1 "bcrt1q" 1%Z true Demo.store).1 = Throw (Error "ECONNREFUSED").
Proof.
  split_and!; [reflexivity|reflexivity|].
  apply (sendFunds_txid_lost (λ key, key) Demo.networkById Demo.bitcoindNoMining
           Demo.backend1 "bcrt1q" 1%Z Demo.store "txid" (Error "ECONNREFUSED")
           eq_refl eq_refl).
Defined.

Lemma mineControls_after_mine_witness :
  (BitcoindModel.mine (λ key, key) Demo.networkById Demo.bitcoindService
     6 Demo.backend2 Demo.store).1 = Return ()
  ∧ Demo.networkById (networkId Demo.backend2) = Return Demo.network1
  ∧ bitcoin (Network.nodes Demo.network1) !! 0%nat = Some Demo.backend1
  ∧ status Demo.backend1 = Status.Started
  ∧ NetworkActions.mineControls Demo.network1
      (BitcoindModel.state
         (BitcoindModel.mine (λ key, key) Demo.networkById Demo.bitcoindService
            6 Demo.backend2 Demo.store).2) = Return true.
Proof.
  assert ((BitcoindModel.mine (λ key, key) Demo.networkById Demo.bitcoindService
             6 Demo.backend2 Demo.store).1 = Return ()) as Hres
    by (vm_compute; reflexivity).
  split_and!; [exact Hres|reflexivity|reflexivity|reflexivity|].
  apply (mineControls_after_mine (λ key, key) Demo.networkById Demo.bitcoindService
           6 Demo.backend2 Demo.backend1 Demo.network1 Demo.store
           Hres eq_refl eq_refl eq_refl).
Defined.

Lemma mineControls_after_removeNode_witness :
  bitcoin (Network.nodes Demo.network1) !! 0%nat = Some Demo.backend1
  ∧ NetworkActions.mineControls Demo.network1
      (BitcoindModel.removeNode Demo.backend1
         (BitcoindModel.setInfo Demo.backend1 106%Z 50%Z
            (BitcoindModel.state Demo.store))) = Return false.
Proof.
  split; [reflexivity|].
  apply (mineControls_after_removeNode Demo.network1 Demo.backend1
           (BitcoindModel.setInfo Demo.backend1 106%Z 50%Z
              (BitcoindModel.state Demo.store)) eq_refl).
Defined.

Lemma getVersions_strict_docker_failure_witness :
  DockerService.docker_version Demo.rtNoDocker (DockerService.trace Demo.world)
  = Throw (Error "connect ENOENT")
  ∧ (DockerService.getVersions Demo.lib Demo.rtNoDocker true Demo.world).1
    = Throw (Error "connect ENOENT").
Proof.
  split; [reflexivity|].
  apply (getVersions_strict_docker_failure Demo.lib Demo.rtNoDocker Demo.world
           (Error "connect ENOENT") eq_refl).
Defined.

Lemma getOpts_linux_ids_witness :
  DockerService.isLinux Demo.libProduction = true
  ∧ ∃ opts,
      (DockerService.getOpts Demo.libProduction (Some Demo.network1) Demo.world).1
      = Return opts
      ∧ DockerService.env opts !! "USERID" = Some "1000".
Proof.
  split; [reflexivity|].
  destruct (getOpts_linux_ids Demo.libProduction (Some Demo.network1) Demo.world
              eq_refl) as (opts & Hopts & Huser & _).
  exists opts. split; [exact Hopts|exact Huser].
Defined.

Lemma ensureDirs_creates_witness :
  (DockerService.ensureDirs Demo.lib Demo.rt Demo.network1
     [commonOfLightning Demo.bob] Demo.world).1 = Return ()
  ∧ DockerService.files
      (DockerService.ensureDirs Demo.lib Demo.rt Demo.network1
         [commonOfLightning Demo.bob] Demo.world).2
    = DockerService.files Demo.world.
Proof.
  assert ((DockerService.ensureDirs Demo.lib Demo.rt Demo.network1
             [commonOfLightning Demo.bob] Demo.world).1 = Return ()) as Hres
    by reflexivity.
  split; [exact Hres|].
  apply (ensureDirs_creates Demo.lib Demo.rt Demo.network1
           [commonOfLightning Demo.bob] Demo.world Hres).
Defined.

Lemma start_creates_dirs_then_up_witness :
  (DockerService.start Demo.lib Demo.rt Demo.network1 Demo.world).1 = Return ()
  ∧ ∃ ds opts,
      DockerService.issued (DockerService.start Demo.lib Demo.rt Demo.network1)
        Demo.world
      = (DockerService.EnsureDir <$> ds)
        ++ [DockerService.Compose DockerService.upAll opts].
Proof.
  assert ((DockerService.start Demo.lib Demo.rt Demo.network1 Demo.world).1
          = Return ()) as Hres by (vm_compute; reflexivity).
  split; [exact Hres|].
  destruct (start_creates_dirs_then_up Demo.lib Demo.rt Demo.network1 Demo.world Hres)
    as (ds & opts & Hissued & _).
  exists ds, opts. exact Hissued.
Defined.

Lemma start_dirs_failure_witness :
  (DockerService.ensureDirs Demo.lib Demo.rtNoDocker Demo.network1
     ((commonOfBitcoin <$> bitcoin (Network.nodes Demo.network1))
      ++ (commonOfLightning <$> lightning (Network.nodes Demo.network1)))
     Demo.world).1 = Throw (Error "EACCES")
  ∧ (DockerService.start Demo.lib Demo.rtNoDocker Demo.network1 Demo.world).1
    = Throw (Error "EACCES").
Proof.
  assert ((DockerService.ensureDirs Demo.lib Demo.rtNoDocker Demo.network1
             ((commonOfBitcoin <$> bitcoin (Network.nodes Demo.network1))
              ++ (commonOfLightning <$> lightning (Network.nodes Demo.network1)))
             Demo.world).1 = Throw (Error "EACCES")) as Hfail by reflexivity.
  split; [exact Hfail|].
  apply (start_dirs_failure Demo.lib Demo.rtNoDocker Demo.network1 Demo.world
           (Error "EACCES") Hfail).
Defined.

Lemma startNode_stop_failure_witness :
  (DockerService.ensureDirs Demo.lib Demo.rtImages Demo.network1
     [commonOfLightning Demo.bob] Demo.world).1 = Return ()
  ∧ ∃ message,
      (DockerService.startNode Demo.lib Demo.rtImages Demo.network1
         (commonOfLightning Demo.bob) Demo.world).1 = Throw (Error message).
Proof.
  assert ((DockerService.ensureDirs Demo.lib Demo.rtImages Demo.network1
             [commonOfLightning Demo.bob] Demo.world).1 = Return ()) as Hdirs
    by reflexivity.
  split; [exact Hdirs|].
  apply (startNode_stop_failure Demo.lib Demo.rtImages Demo.network1
           (commonOfLightning Demo.bob) Demo.world
           {| DockerService.cwd := "/networks/1";
              DockerService.env := {[ "USERID" := "1000"; "GROUPID" := "1000" ]};
              DockerService.executablePath := None |}
           {| DockerService.exitCode := 1; DockerService.out := "";
              DockerService.err := "No such service" |}
           Hdirs); [vm_compute; reflexivity|reflexivity].
Defined.

Lemma loadNetworks_nothing_on_disk_witness :
  ¬ (is_Some (DockerService.files Demo.world !! "/networks/networks.json")
     ∨ "/networks/networks.json" ∈ DockerService.dirs Demo.world)
  ∧ ¬ (is_Some (DockerService.files Demo.world !! "/legacy/networks")
       ∨ "/legacy/networks" ∈ DockerService.dirs Demo.world)
  ∧ (DockerService.loadNetworks Demo.lib Demo.rt Demo.world).1
    = Return {| NetworksFile.version := "1.4.1"; NetworksFile.networks := [];
                NetworksFile.charts := ∅ |}.
Proof.
  assert (∀ path : string,
            ¬ (is_Some (DockerService.files Demo.world !! path)
               ∨ path ∈ DockerService.dirs Demo.world)) as Hnone.
  { intros path [[x Hx]|Hin]; unfold Demo.world in *; simpl in *;
      [by rewrite lookup_empty in Hx|].
    by apply not_elem_of_empty in Hin. }
  split_and!; [apply Hnone|apply Hnone|].
  rewrite (loadNetworks_nothing_on_disk Demo.lib Demo.rt Demo.world
             (Hnone _) (Hnone _)).
  reflexivity.
Defined.

Lemma loadNetworks_copy_failure_swallowed_witness :
  ¬ (is_Some (DockerService.files Demo.worldLegacy !! "/networks/networks.json")
     ∨ "/networks/networks.json" ∈ DockerService.dirs Demo.worldLegacy)
  ∧ (is_Some (DockerService.files Demo.worldLegacy !! "/legacy/networks")
     ∨ "/legacy/networks" ∈ DockerService.dirs Demo.worldLegacy)
  ∧ (DockerService.loadNetworks Demo.lib Demo.rtNoDocker Demo.worldLegacy).1
    = Return {| NetworksFile.version := "1.4.1"; NetworksFile.networks := [];
                NetworksFile.charts := ∅ |}.
Proof.
  assert (¬ (is_Some (DockerService.files Demo.worldLegacy
                        !! "/networks/networks.json")
             ∨ "/networks/networks.json" ∈ DockerService.dirs Demo.worldLegacy))
    as Hpath.
  { intros [[x Hx]|Hin]; unfold Demo.worldLegacy in *; simpl in *;
      [by rewrite lookup_empty in Hx|].
    by apply elem_of_singleton in Hin. }
  assert (is_Some (DockerService.files Demo.worldLegacy !! "/legacy/networks")
          ∨ "/legacy/networks" ∈ DockerService.dirs Demo.worldLegacy) as Hlegacy.
  { right. unfold Demo.worldLegacy; simpl. by apply elem_of_singleton. }
  split_and!; [exact Hpath|exact Hlegacy|].
  rewrite (loadNetworks_copy_failure_swallowed Demo.lib Demo.rtNoDocker
             Demo.worldLegacy (Error "EACCES") Hpath Hlegacy eq_refl).
  reflexivity.
Defined.

Lemma loadNetworks_copies_legacy_witness :
  ¬ (is_Some (DockerService.files Demo.worldLegacy !! "/networks/networks.json")
     ∨ "/networks/networks.json" ∈ DockerService.dirs Demo.worldLegacy)
  ∧ (is_Some (DockerService.files Demo.worldLegacy !! "/legacy/networks")
     ∨ "/legacy/networks" ∈ DockerService.dirs Demo.worldLegacy)
  ∧ (DockerService.loadNetworks Demo.lib Demo.rtLegacy Demo.worldLegacy).1
    = (DockerService.loadNetworks Demo.lib Demo.rtLegacy
         (DockerService.setFiles {[ "/networks/networks.json" := "1.4.1" ]}
            (DockerService.record
               (DockerService.Copy "/legacy/networks" "/networks")
               Demo.worldLegacy))).1.
Proof.
  assert (¬ (is_Some (DockerService.files Demo.worldLegacy
                        !! "/networks/networks.json")
             ∨ "/networks/networks.json" ∈ DockerService.dirs Demo.worldLegacy))
    as Hpath.
  { intros [[x Hx]|Hin]; unfold Demo.worldLegacy in *; simpl in *;
      [by rewrite lookup_empty in Hx|].
    by apply elem_of_singleton in Hin. }
  assert (is_Some (DockerService.files Demo.worldLegacy !! "/legacy/networks")
          ∨ "/legacy/networks" ∈ DockerService.dirs Demo.worldLegacy) as Hlegacy.
  { right. unfold Demo.worldLegacy; simpl. by apply elem_of_singleton. }
  split_and!; [exact Hpath|exact Hlegacy|].
  rewrite (loadNetworks_copies_legacy Demo.lib Demo.rtLegacy Demo.worldLegacy
             {[ "/networks/networks.json" := "1.4.1" ]} Hpath Hlegacy eq_refl).
  - reflexivity.
  - rewrite lookup_singleton_eq. eauto.
Defined.

Lemma loadNetworks_persists_migration_witness :
  DockerService.files (Demo.worldWith "0.2.0") !! "/networks/networks.json"
  = Some "0.2.0"
  ∧ DockerService.JSON_parse Demo.libProduction "0.2.0" = Return Demo.oldNetworksFile
  ∧ (NetworksFile.version Demo.oldNetworksFile
     ≠ DockerService.APP_VERSION Demo.libProduction
     ∨ DockerService.NODE_ENV Demo.libProduction ≠ Some "production")
  ∧ DockerService.migrateNetworksFile Demo.libProduction Demo.oldNetworksFile
    = Return {| NetworksFile.version := "1.4.1"; NetworksFile.networks := [];
                NetworksFile.charts := ∅ |}
  ∧ DockerService.files
      (DockerService.loadNetworks Demo.libProduction Demo.rt
         (Demo.worldWith "0.2.0")).2 !! "/networks/networks.json"
    = Some "1.4.1".
Proof.
  assert (NetworksFile.version Demo.oldNetworksFile
          ≠ DockerService.APP_VERSION Demo.libProduction
          ∨ DockerService.NODE_ENV Demo.libProduction ≠ Some "production") as Hcond
    by (left; discriminate).
  split_and!; [reflexivity|reflexivity|exact Hcond|reflexivity|].
  destruct (loadNetworks_persists_migration Demo.libProduction Demo.rt
              (Demo.worldWith "0.2.0") "0.2.0" Demo.oldNetworksFile
              {| NetworksFile.version := "1.4.1"; NetworksFile.networks := [];
                 NetworksFile.charts := ∅ |}
              eq_refl eq_refl Hcond eq_refl) as (_ & Hfile & _).
  exact Hfile.
Defined.

Lemma loadNetworks_failure_keeps_file_witness :
  DockerService.files (Demo.worldWith "{") !! "/networks/networks.json" = Some "{"
  ∧ DockerService.JSON_parse Demo.libProduction "{" = Throw (Error "Unexpected token")
  ∧ DockerService.loadNetworks Demo.libProduction Demo.rt (Demo.worldWith "{")
    = (Throw (Error "Unexpected token"), Demo.worldWith "{").
Proof.
  split_and!; [reflexivity|reflexivity|].
  apply (loadNetworks_failure_keeps_file Demo.libProduction Demo.rt
           (Demo.worldWith "{") "{" (Error "Unexpected token") eq_refl).
  left. reflexivity.
Defined.

Lemma loadNetworks_production_reads_only_witness :
  DockerService.files (Demo.worldWith "1.4.1") !! "/networks/networks.json"
  = Some "1.4.1"
  ∧ DockerService.JSON_parse Demo.libProduction "1.4.1" = Return Demo.networksFile
  ∧ NetworksFile.version Demo.networksFile
    = DockerService.APP_VERSION Demo.libProduction
  ∧ DockerService.NODE_ENV Demo.libProduction = Some "production"
  ∧ DockerService.loadNetworks Demo.libProduction Demo.rt (Demo.worldWith "1.4.1")
    = (Return Demo.networksFile, Demo.worldWith "1.4.1").
Proof.
  split_and!; [reflexivity..|].
  apply (loadNetworks_production_reads_only Demo.libProduction Demo.rt
           (Demo.worldWith "1.4.1") "1.4.1" Demo.networksFile
           eq_refl eq_refl eq_refl eq_refl).
Defined.

Lemma findBackend_first_match_witness :
  (∃ b : BitcoinNode,
     b ∈ [Demo.backend1; Demo.backend2; Demo.backend3] ∧ name b = "backend2")
  ∧ ∃ b : BitcoinNode,
      DockerService.findBackend [Demo.backend1; Demo.backend2; Demo.backend3]
        "backend2" = Some b
      ∧ name b = "backend2".
Proof.
  assert (∃ b : BitcoinNode,
            b ∈ [Demo.backend1; Demo.backend2; Demo.backend3]
            ∧ name b = "backend2") as Hmatch.
  { exists Demo.backend2. split; [right; left|reflexivity]. }
  split; [exact Hmatch|].
  destruct (findBackend_first_match [Demo.backend1; Demo.backend2; Demo.backend3]
              "backend2" Hmatch) as (before & b & after & _ & Hname & _ & Hfind).
  exists b. split; [exact Hfind|exact Hname].
Defined.
